(** * PEARL [src/utils.py]: helper functions of the A3C training loop

    A shallow embedding of the helpers of [utils.py] and the properties the
    specification states about them.

    Conventions of the embedding:
    - Python [int] is [Z]; Python [float] and the scalar value of a 0-dim
      tensor are exact rationals [Qc] (rounding is not modelled);
    - Python [str] is [string]; an argument that may be [None] is an [option];
    - a Python call is a computation in the state-and-exception monad [Py]:
      it runs on a state, returns a value or raises, and leaves a state;
    - calls into [torch], [numpy], [gc] and [queue] are modelled by what their
      documentation says they do to the objects handed to them; numerical
      kernels (loss functions, forward passes, optimiser updates, casts) are
      parameters of the section that uses them. *)

From Stdlib Require Import ZArith QArith Qcanon DecimalString.
From Stdlib Require DecimalZ DecimalPos.
From Stdlib Require Import Ascii.
From stdpp Require Import gmap strings list fin_maps.

Open Scope string_scope.
Open Scope list_scope.

(** ** Exceptions and the [Py] monad *)

Inductive exn : Type :=
  | ZeroDivisionError
  | RuntimeError
  | TypeError
  | AttributeError
  | ValueError.

Inductive outcome (A : Type) : Type :=
  | Return (a : A)
  | Raise (e : exn).
Arguments Return {A} a.
Arguments Raise {A} e.

(** A computation over a state [St]: the state survives an exception, as the
    mutations of a Python call do. *)
Definition Py (St A : Type) : Type := St → outcome A * St.

Definition py_ret {St A} (a : A) : Py St A := λ s, (Return a, s).

Definition py_bind {St A B} (m : Py St A) (k : A → Py St B) : Py St B :=
  λ s, match m s with
       | (Return a, s') => k a s'
       | (Raise e, s') => (Raise e, s')
       end.

Definition py_raise {St A} (e : exn) : Py St A := λ s, (Raise e, s).
Definition py_get {St} : Py St St := λ s, (Return s, s).
Definition py_modify {St} (f : St → St) : Py St unit := λ s, (Return tt, f s).

#[export] Instance Py_ret {St} : MRet (Py St) := @py_ret St.
#[export] Instance Py_bind {St} : MBind (Py St) :=
  λ A B k m, py_bind m k.

(** The value a computation returns, and the state it leaves. *)
Definition result_of {St A} (m : Py St A) (s : St) : outcome A := fst (m s).
Definition state_after {St A} (m : Py St A) (s : St) : St := snd (m s).

(** Run a computation that lives on a component of the state. *)
Definition py_zoom {St Sub A} (proj : St → Sub) (upd : Sub → St → St)
    (m : Py Sub A) : Py St A :=
  λ s, let '(r, sub) := m (proj s) in (r, upd sub s).

(** ** Python values, queues and the interpreter state *)

(** The values that travel through [result_queue]. *)
#[warnings="-register-all"]
Inductive pyval : Type :=
  | PyNone
  | PyBool (b : bool)
  | PyInt (z : Z)
  | PyFloat (x : Qc)
  | PyStr (s : string)
  | PyList (items : list pyval).

(** What a helper can observe or change outside its arguments' values: the
    number of collections [gc.collect()] has run, and the contents of the
    queue objects, addressed by object identity. *)
Record world : Type := World {
  gc_collections : nat;
  queues : gmap nat (list pyval)
}.

Definition set_queues (f : gmap nat (list pyval) → gmap nat (list pyval))
    (w : world) : world :=
  {| gc_collections := gc_collections w; queues := f (queues w) |}.

(** [gc.collect()]: one more collection; its return value is discarded by
    every caller in [utils.py]. *)
Definition gc_collect : Py world unit :=
  py_modify (λ w, {| gc_collections := S (gc_collections w); queues := queues w |}).

(** [queue.put(item)]: the item goes to the back of the queue. Calling [put]
    on something that is not a queue is an [AttributeError]. *)
Definition queue_put (q : nat) (item : pyval) : Py world unit :=
  w ← py_get;
  match queues w !! q with
  | Some items => py_modify (set_queues <[q := items ++ [item]]>)
  | None => py_raise AttributeError
  end.

(** ** [generate_model_filename] *)

(** [str(n)] for an [int], as an f-string renders it. *)
Definition str_int (z : Z) : string := NilZero.string_of_int (Z.to_int z).

Definition generate_model_filename (prefix model_name : string)
    (input_size max_global_episodes : Z) (self_adjusted_task_steps : option Z)
    : Py world string :=
  let filename :=
    if String.eqb model_name "Encoder" then
      let filename := "A3C&" +:+ model_name +:+ str_int input_size +:+ "-1" in
      match self_adjusted_task_steps with
      | Some steps =>
          filename +:+ ("_" +:+ str_int steps +:+ "N_ep" +:+ str_int max_global_episodes)
      | None => filename +:+ ("_ep" +:+ str_int max_global_episodes)
      end
    else
      let filename := prefix +:+ "A3C_" +:+ model_name +:+ str_int input_size +:+ "-1" in
      match self_adjusted_task_steps with
      | Some steps =>
          filename +:+ ("_recon_" +:+ str_int steps +:+ "N_ep" +:+ str_int max_global_episodes)
      | None => filename +:+ ("_ep" +:+ str_int max_global_episodes)
      end
  in
  gc_collect;; mret filename.

(** Python's [needle in haystack] on strings. *)
Fixpoint str_contains (haystack needle : string) : bool :=
  String.prefix needle haystack ||
  match haystack with
  | EmptyString => false
  | String _ rest => str_contains rest needle
  end.

(** *** Rendering under the interpreter's digit limit

    [str_int] renders every integer. CPython (3.11 and later, with its
    default setting) refuses to render an integer of more than 4300 decimal
    digits: the f-string raises [ValueError]. [generate_model_filename] above
    is the function where no rendered integer is that long;
    [generate_model_filename_limited] is the function with the refusal in
    it. *)
Definition int_max_str_digits : Z := 4300.

(** An integer has more than [int_max_str_digits] digits exactly when its
    absolute value is at least 10 to that power. *)
Definition exceeds_str_digits (z : Z) : bool :=
  (10 ^ int_max_str_digits <=? Z.abs z)%Z.

(** [{z}] inside an f-string. *)
Definition render_int (z : Z) : Py world string :=
  if exceeds_str_digits z then py_raise ValueError else mret (str_int z).

Definition generate_model_filename_limited (prefix model_name : string)
    (input_size max_global_episodes : Z) (self_adjusted_task_steps : option Z)
    : Py world string :=
  filename ←
    (if String.eqb model_name "Encoder" then
       size ← render_int input_size;
       let filename := "A3C&" +:+ model_name +:+ size +:+ "-1" in
       match self_adjusted_task_steps with
       | Some steps =>
           steps ← render_int steps;
           episodes ← render_int max_global_episodes;
           mret (filename +:+ ("_" +:+ steps +:+ "N_ep" +:+ episodes))
       | None =>
           episodes ← render_int max_global_episodes;
           mret (filename +:+ ("_ep" +:+ episodes))
       end
     else
       size ← render_int input_size;
       let filename := prefix +:+ "A3C_" +:+ model_name +:+ size +:+ "-1" in
       match self_adjusted_task_steps with
       | Some steps =>
           steps ← render_int steps;
           episodes ← render_int max_global_episodes;
           mret (filename +:+ ("_recon_" +:+ steps +:+ "N_ep" +:+ episodes))
       | None =>
           episodes ← render_int max_global_episodes;
           mret (filename +:+ ("_ep" +:+ episodes))
       end);
  gc_collect;; mret filename.

(** The integers a call renders: the input size, the episode count and the
    step count when there is one. *)
Definition rendered_ints (input_size max_global_episodes : Z)
    (self_adjusted_task_steps : option Z) : list Z :=
  input_size :: max_global_episodes ::
  match self_adjusted_task_steps with
  | Some steps => [steps]
  | None => []
  end.

(** Every character of a string passes a test. *)
Fixpoint string_all (test : Ascii.ascii → bool) (s : string) : bool :=
  match s with
  | EmptyString => true
  | String c rest => test c && string_all test rest
  end.

(** The characters [str] of an integer is made of. *)
Definition is_decimal_char (c : Ascii.ascii) : bool :=
  existsb (Ascii.eqb c) (String.list_ascii_of_string "-0123456789").

(** ** [log_episode_results] *)

Definition log_episode_results (result_queue : nat)
    (episode_reward success episode_spl : pyval) : Py world unit :=
  queue_put result_queue (PyList [episode_reward; success; episode_spl]).

Definition w0 : world := World 0 ∅.

(** ** [numpy_to_tensor] *)

(** The dtypes an array can carry. [np_object] stands for the dtypes
    [torch.from_numpy] rejects with a [TypeError]. *)
Inductive np_dtype : Type :=
  | np_bool | np_uint8 | np_int8 | np_int16 | np_int32 | np_int64
  | np_float16 | np_float32 | np_float64 | np_complex64 | np_complex128
  | np_object.

#[export] Instance np_dtype_eq_dec : EqDecision np_dtype.
Proof. solve_decision. Defined.

(** [torch_bfloat16] has no NumPy counterpart: [Tensor.numpy()] rejects it. *)
Inductive torch_dtype : Type :=
  | torch_bool | torch_uint8 | torch_int8 | torch_int16 | torch_int32
  | torch_int64 | torch_float16 | torch_float32 | torch_float64
  | torch_complex64 | torch_complex128 | torch_bfloat16.

Definition torch_of_numpy (d : np_dtype) : option torch_dtype :=
  match d with
  | np_bool => Some torch_bool | np_uint8 => Some torch_uint8
  | np_int8 => Some torch_int8 | np_int16 => Some torch_int16
  | np_int32 => Some torch_int32 | np_int64 => Some torch_int64
  | np_float16 => Some torch_float16 | np_float32 => Some torch_float32
  | np_float64 => Some torch_float64 | np_complex64 => Some torch_complex64
  | np_complex128 => Some torch_complex128
  | np_object => None
  end.

Definition numpy_of_torch (d : torch_dtype) : option np_dtype :=
  match d with
  | torch_bool => Some np_bool | torch_uint8 => Some np_uint8
  | torch_int8 => Some np_int8 | torch_int16 => Some np_int16
  | torch_int32 => Some np_int32 | torch_int64 => Some np_int64
  | torch_float16 => Some np_float16 | torch_float32 => Some np_float32
  | torch_float64 => Some np_float64 | torch_complex64 => Some np_complex64
  | torch_complex128 => Some np_complex128
  | torch_bfloat16 => None
  end.

(** Arrays and tensors over a type [elem] of stored elements. *)
Record ndarray (elem : Type) : Type := NdArray {
  nd_dtype : np_dtype;
  nd_shape : list nat;
  nd_data : list elem
}.
Arguments NdArray {elem} _ _ _.
Arguments nd_dtype {elem} _.
Arguments nd_shape {elem} _.
Arguments nd_data {elem} _.

Record tensor (elem : Type) : Type := Tensor {
  t_dtype : torch_dtype;
  t_shape : list nat;
  t_data : list elem
}.
Arguments Tensor {elem} _ _ _.
Arguments t_dtype {elem} _.
Arguments t_shape {elem} _.
Arguments t_data {elem} _.

(** The element conversion [ndarray.astype] applies, from one dtype to
    another. *)
Class ElemCast (elem : Type) : Type :=
  cast_elem : np_dtype → np_dtype → elem → elem.

Section NumpyToTensor.
Context {elem : Type} `{!ElemCast elem}.

(** [array.astype(dtype)]: a new array of the requested dtype. *)
Definition astype (array : ndarray elem) (dtype : np_dtype) : ndarray elem :=
  {| nd_dtype := dtype;
     nd_shape := nd_shape array;
     nd_data := cast_elem (nd_dtype array) dtype <$> nd_data array |}.

(** [torch.from_numpy(array)]: a tensor over the array's own buffer, for a
    dtype torch has. The library refuses other arrays too (a view with a
    negative stride, a foreign byte order); an [ndarray] here carries no
    strides, so which arrays are accepted is stated nowhere beyond the
    dtype. *)
Definition from_numpy (array : ndarray elem) : outcome (tensor elem) :=
  match torch_of_numpy (nd_dtype array) with
  | Some d => Return (Tensor d (nd_shape array) (nd_data array))
  | None => Raise TypeError
  end.

(** [tensor.numpy()]: the way back. *)
Definition tensor_numpy (t : tensor elem) : outcome (ndarray elem) :=
  match numpy_of_torch (t_dtype t) with
  | Some d => Return (NdArray d (t_shape t) (t_data t))
  | None => Raise TypeError
  end.

Definition numpy_to_tensor (array : ndarray elem) (dtype : np_dtype)
    : outcome (tensor elem) :=
  let array :=
    if bool_decide (nd_dtype array ≠ dtype) then astype array dtype else array
  in
  from_numpy array.
End NumpyToTensor.

(** ** [sync_and_optimize] *)

(** [l.insert(i, x)] on a Python list, for an index within range. *)
Definition py_list_insert {A} (i : nat) (x : A) (l : list A) : list A :=
  take i l ++ x :: drop i l.

(** One turn of the loop over [reversed(buffer_reward)]: the pair is
    ([value], [buffer_v_target]). *)
Definition v_target_step (gamma : Qc) (acc : Qc * list Qc) (reward : Qc)
    : Qc * list Qc :=
  let value := (reward + gamma * fst acc)%Qc in
  (value, py_list_insert 0 value (snd acc)).

(** Lines 62-66: [buffer_v_target] as the loop leaves it. *)
Definition buffer_v_target (buffer_reward : list Qc) (gamma : Qc) : list Qc :=
  snd (fold_left (v_target_step gamma) (rev buffer_reward) (0%Qc, [])).

(** The backward recurrence of the specification: the return of a reward
    sequence is its first reward plus [gamma] times the return of the rest. *)
Fixpoint spec_discounted_sum (gamma : Qc) (rewards : list Qc) : Qc :=
  match rewards with
  | [] => 0%Qc
  | r :: rest => (r + gamma * spec_discounted_sum gamma rest)%Qc
  end.

(** Its closed form: the sum of [gamma^(k+j) * r_j] over the rewards
    [r_0, r_1, ...], with [k = 0] for the return itself. *)
Fixpoint spec_power_sum (gamma : Qc) (k : nat) (rewards : list Qc) : Qc :=
  match rewards with
  | [] => 0%Qc
  | r :: rest => (gamma ^ k * r + spec_power_sum gamma (S k) rest)%Qc
  end.

(** The returns of every suffix of the rewards, front to back. *)
Fixpoint suffix_returns (gamma : Qc) (rs : list Qc) : list Qc :=
  match rs with
  | [] => []
  | r :: rest => spec_discounted_sum gamma (r :: rest) :: suffix_returns gamma rest
  end.

(** A parameter of a network: its value and its [.grad] ([None] until a
    backward pass reaches it). *)
Record param (T : Type) : Type := Param {
  p_data : T;
  p_grad : option T
}.
Arguments Param {T} _ _.
Arguments p_data {T} _.
Arguments p_grad {T} _.

(** An [nn.Module] as [named_parameters()] shows it, in registration order. *)
Abbreviation nn_module T := (list (string * param T)).

(** The two models of a worker are distinct objects; the optimiser holds
    references to parameters of either. *)
Inductive model_id : Type := LocalModel | GlobalModel.

Record optimizer (O : Type) : Type := Optimizer {
  opt_params : list (model_id * nat);
  opt_state : O
}.
Arguments Optimizer {O} _ _.
Arguments opt_params {O} _.
Arguments opt_state {O} _.

Record train_state (T O : Type) : Type := TrainState {
  local_model : nn_module T;
  global_model : nn_module T;
  optim : optimizer O;
  interp : world
}.
Arguments TrainState {T O} _ _ _ _.
Arguments local_model {T O} _.
Arguments global_model {T O} _.
Arguments optim {T O} _.
Arguments interp {T O} _.

(** The rollout buffers handed to [sync_and_optimize], the recurrent state
    included. *)
Record rollout (Obs Hid : Type) : Type := Rollout {
  buffer_cur_z : list Obs;
  buffer_target_z : list Obs;
  buffer_pre_action : list Obs;
  buffer_action : list Z;
  buffer_reward : list Qc;
  hidden_state : Hid;
  cell_state : Hid
}.
Arguments Rollout {Obs Hid} _ _ _ _ _ _ _.
Arguments buffer_cur_z {Obs Hid} _.
Arguments buffer_target_z {Obs Hid} _.
Arguments buffer_pre_action {Obs Hid} _.
Arguments buffer_action {Obs Hid} _.
Arguments buffer_reward {Obs Hid} _.
Arguments hidden_state {Obs Hid} _.
Arguments cell_state {Obs Hid} _.

(** The numerical kernels [sync_and_optimize] calls into.
    - [loss_function]: [torch.vstack] of the three buffers, [torch.tensor] of
      the actions and of the value targets on [device], then
      [local_model.loss_function] on the local parameter values; it raises
      when the library does (an empty buffer, mismatched shapes);
    - [backward]: the gradient [loss.backward()] sends to each local
      parameter, [None] where the loss does not reach one;
    - [grad_add]: accumulation into a [.grad] that is already set;
    - [opt_update]: the new value [optimizer.step()] gives the k-th
      parameter of the optimiser, from its value and gradient;
    - [opt_advance]: the optimiser's own state after a step;
    - [same_shape]: whether two tensors have the same shape, which
      [load_state_dict] checks before it copies. *)
Class TrainKernel (T O Obs Hid Loss : Type) : Type := {
  loss_function :
    list Obs → list Obs → list Obs → Hid → Hid → list Z → list Qc →
    list T → outcome Loss;
  backward : Loss → list (option T);
  grad_add : T → T → T;
  opt_update : O → nat → T → T → T;
  opt_advance : O → O;
  same_shape : T → T → bool
}.

Section SyncAndOptimize.
Context {T O Obs Hid Loss : Type} `{!TrainKernel T O Obs Hid Loss}.

Definition set_local (f : nn_module T → nn_module T) (st : train_state T O)
    : train_state T O :=
  TrainState (f (local_model st)) (global_model st) (optim st) (interp st).

Definition set_global (f : nn_module T → nn_module T) (st : train_state T O)
    : train_state T O :=
  TrainState (local_model st) (f (global_model st)) (optim st) (interp st).

Definition set_optim (f : optimizer O → optimizer O) (st : train_state T O)
    : train_state T O :=
  TrainState (local_model st) (global_model st) (f (optim st)) (interp st).

Definition set_interp (w : world) (st : train_state T O) : train_state T O :=
  TrainState (local_model st) (global_model st) (optim st) w.

(** Apply [f] to the parameter a reference points to. *)
Definition update_param (f : param T → param T) (r : model_id * nat)
    (st : train_state T O) : train_state T O :=
  match r.1 with
  | LocalModel => set_local (alter (prod_map id f) r.2) st
  | GlobalModel => set_global (alter (prod_map id f) r.2) st
  end.

(** [module.state_dict()]: parameter name to parameter value. *)
Definition state_dict (m : nn_module T) : gmap string T :=
  list_to_map (prod_map id p_data <$> m).

(** [optimizer.zero_grad()]: the gradients of the optimiser's parameters are
    reset to [None]. *)
Definition zero_grad : Py (train_state T O) unit :=
  py_modify (λ st,
    foldl (λ st r, update_param (λ p, Param (p_data p) None) r st)
          st (opt_params (optim st))).

(** [loss.backward()]: each local parameter accumulates its gradient. *)
Definition accumulate_grad (p : string * param T) (g : option T)
    : string * param T :=
  match g, p_grad p.2 with
  | None, _ => p
  | Some g, None => (p.1, Param (p_data p.2) (Some g))
  | Some g, Some old => (p.1, Param (p_data p.2) (Some (grad_add old g)))
  end.

Fixpoint accumulate_grads (m : nn_module T) (gs : list (option T))
    : nn_module T :=
  match m, gs with
  | p :: m', g :: gs' => accumulate_grad p g :: accumulate_grads m' gs'
  | _, _ => m
  end.

Definition loss_backward (loss : Loss) : Py (train_state T O) unit :=
  py_modify (set_local (λ m, accumulate_grads m (backward loss))).

(** Lines 80-82: along [zip(local.parameters(), global.parameters())], a
    global parameter takes the gradient of its local partner when that
    gradient is not [None]. *)
Fixpoint share_grads (local global : nn_module T) : nn_module T :=
  match local, global with
  | lp :: local', gp :: global' =>
      match p_grad lp.2 with
      | Some g => (gp.1, Param (p_data gp.2) (Some g))
      | None => gp
      end :: share_grads local' global'
  | _, _ => global
  end.

(** [optimizer.step()]: every parameter of the optimiser that has a gradient
    is updated; the others are skipped. *)
Definition step_param (o : O) (k : nat) (p : param T) : param T :=
  match p_grad p with
  | Some g => Param (opt_update o k (p_data p) g) (p_grad p)
  | None => p
  end.

Fixpoint step_params (o : O) (k : nat) (refs : list (model_id * nat))
    (st : train_state T O) : train_state T O :=
  match refs with
  | [] => st
  | r :: refs' => step_params o (S k) refs' (update_param (step_param o k) r st)
  end.

Definition optimizer_step : Py (train_state T O) unit :=
  py_modify (λ st,
    let o := opt_state (optim st) in
    set_optim (λ op, Optimizer (opt_params op) (opt_advance o))
              (step_params o 0 (opt_params (optim st)) st)).

(** [module.load_state_dict(sd)] with its default [strict=True]. The module
    goes through its parameters: one whose name is a key of [sd], with a
    value of the same shape, takes that value; the others are left as they
    are. Only then does it raise [RuntimeError], if a parameter had no key,
    a key had no parameter, or a shape did not fit. *)
Definition load_param (sd : gmap string T) (p : string * param T)
    : string * param T :=
  match sd !! p.1 with
  | Some v => if same_shape (p_data p.2) v then (p.1, Param v (p_grad p.2)) else p
  | None => p
  end.

Definition load_complete (m : nn_module T) (sd : gmap string T) : bool :=
  bool_decide (dom (state_dict m) = dom sd) &&
  forallb (λ p : string * param T,
             match sd !! p.1 with
             | Some v => same_shape (p_data p.2) v
             | None => true
             end) m.

Definition load_state_dict (sd : gmap string T) : Py (nn_module T) unit :=
  λ m, (if load_complete m sd then Return () else Raise RuntimeError,
        load_param sd <$> m).

(** Lines 62-83: everything up to and including [optimizer.step()]. *)
Definition optimize_global (roll : rollout Obs Hid) (gamma : Qc)
    : Py (train_state T O) unit :=
  let v_target := buffer_v_target (buffer_reward roll) gamma in
  st ← py_get;
  match loss_function (buffer_cur_z roll) (buffer_target_z roll)
          (buffer_pre_action roll) (hidden_state roll) (cell_state roll)
          (buffer_action roll) v_target (p_data ∘ snd <$> local_model st) with
  | Raise e => py_raise e
  | Return loss =>
      zero_grad;;
      loss_backward loss;;
      py_modify (λ st, set_global (share_grads (local_model st)) st);;
      optimizer_step
  end.

(** The state after the steps that precede [load_state_dict], written out. *)
Definition after_step (loss : Loss) (st : train_state T O) : train_state T O :=
  let st_zero :=
    foldl (λ st r, update_param (λ p, Param (p_data p) None) r st)
          st (opt_params (optim st)) in
  let st_back := set_local (λ m, accumulate_grads m (backward loss)) st_zero in
  let st_share := set_global (share_grads (local_model st_back)) st_back in
  set_optim (λ op, Optimizer (opt_params op) (opt_advance (opt_state (optim st_share))))
            (step_params (opt_state (optim st_share)) 0
                         (opt_params (optim st_share)) st_share).

Definition sync_and_optimize (roll : rollout Obs Hid) (gamma : Qc)
    : Py (train_state T O) unit :=
  optimize_global roll gamma;;
  st ← py_get;
  py_zoom local_model (λ m, set_local (λ _, m))
          (load_state_dict (state_dict (global_model st)));;
  py_zoom interp set_interp gc_collect.
End SyncAndOptimize.

(** ** [compute_epoch_loss] *)

(** A [for] loop with an accumulator. *)
Fixpoint py_for {St A B} (xs : list A) (acc : B) (body : B → A → Py St B)
    : Py St B :=
  match xs with
  | [] => mret acc
  | x :: xs' => acc' ← body acc x; py_for xs' acc' body
  end.

(** What [total_loss] can hold: the Python float it starts as, a 0-dim
    tensor once a loss has been added, and the tensor values [inf], [-inf]
    and [nan] that a tensor division by zero produces. *)
Inductive scalar : Type :=
  | FloatScalar (x : Qc)
  | TensorScalar (x : Qc)
  | TensorNonFinite.

(** [total_loss += loss] for a tensor [loss]: the sum is a tensor. *)
Definition scalar_add_loss (total : scalar) (loss : Qc) : scalar :=
  match total with
  | FloatScalar x => TensorScalar (x + loss)
  | TensorScalar x => TensorScalar (x + loss)
  | TensorNonFinite => TensorNonFinite
  end.

(** [total_loss / num_samples]: a float divided by zero raises, a tensor
    divided by zero does not. *)
Definition scalar_div (total : scalar) (n : Z) : outcome scalar :=
  match total with
  | FloatScalar x =>
      if (n =? 0)%Z then Raise ZeroDivisionError
      else Return (FloatScalar (x / Q2Qc (inject_Z n)))
  | TensorScalar x =>
      if (n =? 0)%Z then Return TensorNonFinite
      else Return (TensorScalar (x / Q2Qc (inject_Z n)))
  | TensorNonFinite => Return TensorNonFinite
  end.

(** The flags the call touches: [model.training] and autograd's grad mode. *)
Record net_mode : Type := NetMode {
  training : bool;
  grad_enabled : bool
}.

(** [model.eval()]. *)
Definition model_eval : Py net_mode unit :=
  py_modify (λ s, NetMode false (grad_enabled s)).

(** [with torch.no_grad(): body]: grad mode is off inside and restored on the
    way out, also when the body raises. *)
Definition no_grad {A} (body : Py net_mode A) : Py net_mode A :=
  λ s, let '(r, s') := body (NetMode (training s) false) in
       (r, NetMode (training s') (grad_enabled s)).

(** The kernels of the evaluation loop.
    - [to_device]: [inputs.to(device)];
    - [size0]: [inputs.size(0)], the number of samples of a batch;
    - [forward]: [model(inputs)] in the given training mode;
    - [loss_sum]: [loss_fn(outputs, inputs, reduction='sum')]. *)
Class EvalKernel (Batch Out : Type) : Type := {
  to_device : Batch → Batch;
  size0 : Batch → nat;
  forward : bool → Batch → Out;
  loss_sum : Out → Batch → Qc
}.

Section ComputeEpochLoss.
Context {Batch Label Out : Type} `{!EvalKernel Batch Out}.

(** The body of the loop over [data_loader]. *)
Definition epoch_loss_body (acc : scalar * Z) (item : Batch * Label)
    : Py net_mode (scalar * Z) :=
  let '(total_loss, num_samples) := acc in
  mode ← py_get;
  let inputs := to_device item.1 in
  let outputs := forward (training mode) inputs in
  let loss := loss_sum outputs inputs in
  let num_samples := (num_samples + Z.of_nat (size0 inputs))%Z in
  let total_loss := scalar_add_loss total_loss loss in
  mret (total_loss, num_samples).

Definition compute_epoch_loss (data_loader : list (Batch * Label))
    : Py net_mode scalar :=
  model_eval;;
  acc ← no_grad (py_for data_loader (FloatScalar 0, 0%Z) epoch_loss_body);
  match scalar_div acc.1 acc.2 with
  | Return avg => mret avg
  | Raise e => py_raise e
  end.

(** The two quantities of the specification: the sum of the per-batch summed
    losses in evaluation mode, and the total number of samples. *)
Definition spec_batch_loss (inputs : Batch) : Qc :=
  loss_sum (forward false (to_device inputs)) (to_device inputs).

Fixpoint spec_total_loss (data_loader : list (Batch * Label)) : Qc :=
  match data_loader with
  | [] => 0
  | item :: rest => spec_batch_loss item.1 + spec_total_loss rest
  end.

Fixpoint spec_total_samples (data_loader : list (Batch * Label)) : nat :=
  match data_loader with
  | [] => 0
  | item :: rest => size0 (to_device item.1) + spec_total_samples rest
  end.
End ComputeEpochLoss.

(** ** [initialize_layers] *)

(** A layer, as far as [initialize_layers] looks at it. For each of the two
    attributes: [None] when the object does not have it ([hasattr] is false);
    [Some None] when it has it with the value [None], as the [bias] of a layer
    built with [bias=False]; [Some (Some p)] when it holds a parameter, whose
    values are kept flattened. *)
Record layer : Type := Layer {
  layer_weight : option (option (param (list Qc)));
  layer_bias : option (option (param (list Qc)))
}.

(** What kind of value an attribute has, its contents aside. *)
Definition attr_kind {A} (attr : option (option A)) : option (option unit) :=
  match attr with
  | None => None
  | Some None => Some None
  | Some (Some _) => Some (Some ())
  end.

(** [nn.init.normal_(t, mean, std)] as a whole: the new values of the tensor
    and the generator after the call. How many numbers the library takes
    from the generator, and in which order, is its own business. *)
Class NormalSampler (G : Type) : Type :=
  normal_sample : Qc → Qc → list Qc → G → list Qc * G.

(** The layer objects, by identity, and the generator. *)
Record init_state (G : Type) : Type := InitState {
  layer_store : gmap nat layer;
  generator : G
}.
Arguments InitState {G} _ _.
Arguments layer_store {G} _.
Arguments generator {G} _.

Section InitializeLayers.
Context {G : Type} `{!NormalSampler G}.

(** [nn.init.constant_(t, val)]: every entry becomes [val]. *)
Definition constant_fill (values : list Qc) (val : Qc) : list Qc :=
  replicate (length values) val.

(** Lines 38-39. An initialiser works on the values only and leaves a
    gradient alone; called on [None] it raises [AttributeError]. *)
Definition init_weight (l : layer) (g : G) : outcome () * (layer * G) :=
  match layer_weight l with
  | None => (Return (), (l, g))
  | Some None => (Raise AttributeError, (l, g))
  | Some (Some w) =>
      let '(values, g') := normal_sample 0 (Q2Qc (1 # 10)) (p_data w) g in
      (Return (),
       (Layer (Some (Some (Param values (p_grad w)))) (layer_bias l), g'))
  end.

(** Lines 40-41. *)
Definition init_bias (l : layer) : outcome () * layer :=
  match layer_bias l with
  | None => (Return (), l)
  | Some None => (Raise AttributeError, l)
  | Some (Some b) =>
      (Return (),
       Layer (layer_weight l)
             (Some (Some (Param (constant_fill (p_data b) 0) (p_grad b)))))
  end.

(** The body of the loop, on the layer itself: the bias is looked at only
    when the weight has not raised. *)
Definition init_layer (l : layer) (g : G) : outcome () * (layer * G) :=
  match init_weight l g with
  | (Return _, (l1, g1)) => let '(r, l2) := init_bias l1 in (r, (l2, g1))
  | (Raise e, lg) => (Raise e, lg)
  end.

(** The body of the loop, on the store: the object listed is updated in
    place, also when the body raises half way. An object that is not a layer
    has neither attribute. *)
Definition initialize_step (id : nat) : Py (init_state G) unit :=
  λ st, match layer_store st !! id with
        | Some l =>
            let '(r, (l', g)) := init_layer l (generator st) in
            (r, InitState (<[id := l']> (layer_store st)) g)
        | None => (Return (), st)
        end.

Definition initialize_layers (layers : list nat) : Py (init_state G) unit :=
  py_for layers () (λ _ id, initialize_step id).
End InitializeLayers.

(** A bias attribute after [constant_]: zeros, as many as before. *)
Definition zeroed_bias (bias : option (option (param (list Qc))))
    : option (option (param (list Qc))) :=
  match bias with
  | Some (Some b) =>
      Some (Some (Param (replicate (length (p_data b)) (Q2Qc 0)) (p_grad b)))
  | other => other
  end.

(** ** [plot_training_loss] *)

(** The function computes a few values and hands them to matplotlib. The
    calls into matplotlib are recorded, in order, as the commands of a
    figure; the values are computed as Python and NumPy compute them. *)
Module Plot.

Inductive exn : Type := ZeroDivisionError | ValueError.

Inductive axes : Type := Ax1 | Ax2.

Inductive cmd : Type :=
  | Figure
  | Subplot (rows cols index : Z)
  | PlotXY (ax : axes) (xs : list Z) (ys : list Qc) (label : string)
  | PlotY (ax : axes) (ys : list Qc) (label : string)
  | SetXLabel (ax : axes) (text : string)
  | SetYLabel (ax : axes) (text : string)
  | SetYLim (ax : axes) (low high : Qc)
  | Legend (ax : axes)
  | Twiny (of_ax new_ax : axes)
  | SetXTicks (ax : axes) (positions : list Z)
  | SetXTickLabels (ax : axes) (labels : list Z)
  | SetTicksPosition (ax : axes) (side : string)
  | SetLabelPosition (ax : axes) (side : string)
  | SetSpinePosition (ax : axes) (spine kind : string) (amount : Z)
  | SetXLimFrom (ax of_ax : axes)
  | TightLayout.

(** A computation that draws: it may raise, and what has been drawn by then
    stays drawn. *)
Definition M (A : Type) : Type := list cmd → (exn + A) * list cmd.

Definition ret {A} (a : A) : M A := λ fig, (inr a, fig).

Definition bind {A B} (m : M A) (k : A → M B) : M B :=
  λ fig, match m fig with
         | (inr a, fig') => k a fig'
         | (inl e, fig') => (inl e, fig')
         end.

Definition emit (c : cmd) : M unit := λ fig, (inr (), fig ++ [c]).

(** The value of an expression that may raise. *)
Definition eval {A} (r : exn + A) : M A := λ fig, (r, fig).

#[export] Instance M_ret : MRet M := @ret.
#[export] Instance M_bind : MBind M := λ A B k m, bind m k.

(** [a // b] on integers. *)
Definition floordiv (a b : Z) : exn + Z :=
  if (b =? 0)%Z then inl ZeroDivisionError else inr (a / b)%Z.

(** [list(range(n))]. *)
Definition py_range (n : Z) : list Z := Z.of_nat <$> seq 0 (Z.to_nat n).

(** [l[::k]] for a positive step: [skip] elements are passed over before the
    next one is taken. *)
Fixpoint stride_from {A} (k skip : nat) (l : list A) : list A :=
  match l with
  | [] => []
  | x :: rest =>
      match skip with
      | 0 => x :: stride_from k (k - 1) rest
      | S skip' => stride_from k skip' rest
      end
  end.

Definition py_stride {A} (k : nat) (l : list A) : list A := stride_from k 0 l.

Definition Qc_max (a b : Qc) : Qc := if Qclt_le_dec a b then b else a.

(** [np.max(l)]: a [ValueError] on an empty sequence. *)
Definition np_max (l : list Qc) : exn + Qc :=
  match l with
  | [] => inl ValueError
  | x :: rest => inr (foldl Qc_max x rest)
  end.

(** [np.ones(n) / n]: a negative length is a [ValueError]; for [n = 0] the
    array is empty and nothing is divided. *)
Definition np_ones_div (n : Z) : exn + list Qc :=
  if (n <? 0)%Z then inl ValueError
  else inr (replicate (Z.to_nat n) (1 / Q2Qc (inject_Z n))%Qc).

Definition dot (xs ys : list Qc) : Qc :=
  foldr Qcplus (Q2Qc 0) (zip_with Qcmult xs ys).

(** [np.convolve(a, v, mode='valid')]: an empty argument is a [ValueError];
    the longer sequence is slid over the reversed shorter one, and only the
    positions where they overlap completely are kept. *)
Definition np_convolve_valid (a v : list Qc) : exn + list Qc :=
  match a, v with
  | [], _ | _, [] => inl ValueError
  | _, _ =>
      let '(long, short) := if (length v <=? length a)%nat then (a, v) else (v, a) in
      inr ((λ i, dot (take (length short) (drop i long)) (reverse short))
             <$> seq 0 (length long - length short + 1))
  end.

(** Line 150: the running average that is plotted. *)
Definition running_average (minibatch_losses : list Qc)
    (averaging_iterations : Z) : exn + list Qc :=
  match np_ones_div averaging_iterations with
  | inl e => inl e
  | inr kernel => np_convolve_valid minibatch_losses kernel
  end.

(** Lines 156-159: the positions and the labels of the epoch ticks. *)
Definition epoch_ticks (num_epochs iter_per_epoch : Z) : list Z * list Z :=
  let newlabel := py_range (num_epochs + 1) in
  let newpos := (λ e, e * iter_per_epoch)%Z <$> newlabel in
  (py_stride 10 newpos, py_stride 10 newlabel).

(** The losses are exact numbers and a list may be as long as it likes: a
    NaN or an infinite loss, which [set_ylim] refuses, and a [num_epochs] too
    large for [list(range(...))] are not represented, so a result [inr ()]
    here says that the call gets through the three checks made below, not
    that matplotlib and the memory accept every value. *)
Definition plot_training_loss (minibatch_losses : list Qc) (num_epochs : Z)
    (averaging_iterations : Z) (custom_label : string) : M unit :=
  iter_per_epoch ← eval (floordiv (Z.of_nat (length minibatch_losses)) num_epochs);
  emit Figure;;
  emit (Subplot 1 1 1);;
  emit (PlotXY Ax1 (py_range (Z.of_nat (length minibatch_losses)))
               minibatch_losses ("Minibatch Loss " +:+ custom_label));;
  emit (SetXLabel Ax1 "Iterations");;
  emit (SetYLabel Ax1 "Loss");;
  top ← eval (np_max (drop 1000 minibatch_losses));
  emit (SetYLim Ax1 (Q2Qc 0) (top * Q2Qc (3 # 2)));;
  average ← eval (running_average minibatch_losses averaging_iterations);
  emit (PlotY Ax1 average ("Running Average " +:+ custom_label));;
  emit (Legend Ax1);;
  emit (Twiny Ax1 Ax2);;
  let '(newpos, newlabel) := epoch_ticks num_epochs iter_per_epoch in
  emit (SetXTicks Ax2 newpos);;
  emit (SetXTickLabels Ax2 newlabel);;
  emit (SetTicksPosition Ax2 "bottom");;
  emit (SetLabelPosition Ax2 "bottom");;
  emit (SetSpinePosition Ax2 "bottom" "outward" 45);;
  emit (SetXLabel Ax2 "Epochs");;
  emit (SetXLimFrom Ax2 Ax1);;
  emit TightLayout.

End Plot.

(** ** Concrete kernels, for running the definitions on examples *)

(** A generator that counts the calls and fills a tensor with the count. *)
Definition demo_sampler : NormalSampler nat :=
  λ _ _ values g, (replicate (length values) (Q2Qc (inject_Z (Z.of_nat g))), S g).

Definition demo_init_state : init_state nat :=
  InitState {[ 1 := Layer (Some (Some (Param [Q2Qc 5; Q2Qc 6] None)))
                          (Some (Some (Param [Q2Qc 7] None)));
               2 := Layer None None;
               3 := Layer (Some (Some (Param [Q2Qc 8] None))) None;
               4 := Layer (Some (Some (Param [Q2Qc 9] None))) (Some None);
               5 := Layer None (Some (Some (Param [Q2Qc 3; Q2Qc 4] None))) ]} 0.

(** Integer elements; a cast leaves them alone. *)
Definition demo_cast : ElemCast Z := λ _ _ x, x.

(** A batch is the list of its samples; the network is the identity and the
    summed loss of a batch is the sum of its samples. *)
Definition demo_eval_kernel : EvalKernel (list Qc) (list Qc) :=
  {| to_device := id;
     size0 := length;
     forward := λ _ inputs, inputs;
     loss_sum := λ outputs _, foldr Qcplus 0%Qc outputs |}.

(** Integer tensors, a loss that needs a non-empty rollout and sends the
    gradient 1 to every parameter, and plain gradient descent. *)
Definition demo_train_kernel : TrainKernel Z unit unit unit nat :=
  {| loss_function := λ cur_z _ _ _ _ _ _ params,
       match cur_z with
       | [] => Raise RuntimeError
       | _ => Return (length params)
       end;
     backward := λ n, replicate n (Some 1%Z);
     grad_add := Z.add;
     opt_update := λ _ _ x g, (x - g)%Z;
     opt_advance := λ o, o;
     same_shape := λ _ _, true |}.

Definition demo_rollout : rollout unit unit :=
  Rollout [()] [()] [()] [0%Z] [Q2Qc 1] () ().

(** A worker whose optimiser drives the two parameters of the global model. *)
Definition demo_train_state : train_state Z unit :=
  TrainState [("w", Param 5%Z None); ("b", Param 7%Z None)]
             [("w", Param 1%Z None); ("b", Param 2%Z None)]
             (Optimizer [(GlobalModel, 0); (GlobalModel, 1)] ())
             w0.

(** A rollout with nothing in it: the demo loss raises on it. *)
Definition demo_rollout_empty : rollout unit unit :=
  Rollout [] [] [] [] [] () ().

(** The state [demo_train_state] is in after one call on [demo_rollout]. *)
Definition demo_train_state_after : train_state Z unit :=
  TrainState [("w", Param 0%Z (Some 1%Z)); ("b", Param 1%Z (Some 1%Z))]
             [("w", Param 0%Z (Some 1%Z)); ("b", Param 1%Z (Some 1%Z))]
             (Optimizer [(GlobalModel, 0); (GlobalModel, 1)] ())
             (World 1 ∅).

(** A worker whose two models share one parameter name only. *)
Definition demo_mismatch_state : train_state Z unit :=
  TrainState [("w", Param 5%Z None); ("u", Param 9%Z None)]
             [("w", Param 1%Z None); ("v", Param 2%Z None)]
             (Optimizer [(GlobalModel, 0)] ())
             w0.

(** A worker whose optimiser drives the first global parameter only. *)
Definition demo_partial_state : train_state Z unit :=
  TrainState [("w", Param 5%Z None); ("b", Param 7%Z None)]
             [("w", Param 1%Z None); ("b", Param 2%Z None)]
             (Optimizer [(GlobalModel, 0)] ())
             w0.

(** * Properties *)

Example str_int_samples :
  str_int 0 = "0" ∧ str_int 100 = "100" ∧ str_int (-7) = "-7".
Proof. repeat split; reflexivity. Qed.


(** Unfold the monad down to the state function. *)
Ltac py_run :=
  cbv beta iota zeta delta
    [result_of state_after mbind mret Py_bind Py_ret py_bind py_ret
     py_get py_modify py_raise py_zoom];
  cbn [fst snd].

(** C2: with model_name "Encoder", input_size 4, 100 episodes, no prefix and no
    step count, the generated filename is exactly "A3C&Encoder4-1_ep100". *)
Theorem generate_model_filename_encoder_example (w : world) :
  result_of (generate_model_filename "" "Encoder" 4 100 None) w
  = Return "A3C&Encoder4-1_ep100".
Proof. reflexivity. Qed.

(** ** The filename template *)

Lemma string_app_assoc (a b c : string) : (a +:+ b) +:+ c = a +:+ (b +:+ c).
Proof.
  induction a as [|ch a IH]; [reflexivity |].
  change (String ch ((a +:+ b) +:+ c) = String ch (a +:+ (b +:+ c))).
  by rewrite IH.
Qed.

(** The two templates, read off the branches of [generate_model_filename]. *)
Lemma generate_model_filename_encoder prefix input_size episodes steps w :
  result_of (generate_model_filename prefix "Encoder" input_size episodes steps) w
  = Return ("A3C&Encoder" +:+ str_int input_size +:+ "-1" +:+
            match steps with
            | Some n => "_" +:+ str_int n +:+ "N_ep" +:+ str_int episodes
            | None => "_ep" +:+ str_int episodes
            end).
Proof.
  unfold generate_model_filename.
  destruct steps; py_run; by rewrite !string_app_assoc.
Qed.

Lemma generate_model_filename_other prefix model_name input_size episodes steps w :
  model_name ≠ "Encoder" →
  result_of (generate_model_filename prefix model_name input_size episodes steps) w
  = Return (prefix +:+ "A3C_" +:+ model_name +:+ str_int input_size +:+ "-1" +:+
            match steps with
            | Some n => "_recon_" +:+ str_int n +:+ "N_ep" +:+ str_int episodes
            | None => "_ep" +:+ str_int episodes
            end).
Proof.
  intros Hne. unfold generate_model_filename.
  destruct (String.eqb_spec model_name "Encoder") as [->|_]; [done|].
  destruct steps; py_run; by rewrite !string_app_assoc.
Qed.

(** C3 (as amended): two calls that agree on model_name, input_size,
    max_global_episodes and self_adjusted_task_steps, and also on prefix
    unless model_name is "Encoder", return the same filename. *)
Theorem generate_model_filename_determined_by
    (p1 p2 model_name : string) (input_size episodes : Z) (steps : option Z)
    (w1 w2 : world) :
  (model_name ≠ "Encoder" → p1 = p2) →
  result_of (generate_model_filename p1 model_name input_size episodes steps) w1
  = result_of (generate_model_filename p2 model_name input_size episodes steps) w2.
Proof.
  intros Hp. destruct (decide (model_name = "Encoder")) as [->|Hne].
  - by rewrite !generate_model_filename_encoder.
  - by rewrite (Hp Hne).
Qed.

Lemma generate_model_filename_determined_by_witness :
  ("Encoder" ≠ "Encoder" → "runA_" = "runB_") ∧
  result_of (generate_model_filename "runA_" "Encoder" 4 100 (Some 7%Z)) w0
  = result_of (generate_model_filename "runB_" "Encoder" 4 100 (Some 7%Z)) (World 3 ∅).
Proof.
  split; [intros H; by destruct H |].
  apply generate_model_filename_determined_by. intros H; by destruct H.
Defined.

(** C3 (as stated) fails: two calls that differ in input_size only return
    different filenames, and so do two calls with a model name other than
    "Encoder" that differ in prefix only. *)
Lemma generate_model_filename_not_determined :
  (result_of (generate_model_filename "" "Encoder" 4 100 None) w0
     = Return "A3C&Encoder4-1_ep100" ∧
   result_of (generate_model_filename "" "Encoder" 5 100 None) w0
     = Return "A3C&Encoder5-1_ep100" ∧
   result_of (generate_model_filename "" "Encoder" 4 100 None) w0
     ≠ result_of (generate_model_filename "" "Encoder" 5 100 None) w0) ∧
  (result_of (generate_model_filename "a_" "Decoder" 4 100 None) w0
     = Return "a_A3C_Decoder4-1_ep100" ∧
   result_of (generate_model_filename "b_" "Decoder" 4 100 None) w0
     = Return "b_A3C_Decoder4-1_ep100" ∧
   result_of (generate_model_filename "a_" "Decoder" 4 100 None) w0
     ≠ result_of (generate_model_filename "b_" "Decoder" 4 100 None) w0).
Proof. split; (split_and!; [reflexivity .. | discriminate]). Qed.

(** With a step count the two templates differ in their middle part too. *)
Example generate_model_filename_with_steps :
  result_of (generate_model_filename "run_" "Encoder" 4 100 (Some 25%Z)) w0
    = Return "A3C&Encoder4-1_25N_ep100" ∧
  result_of (generate_model_filename "run_" "Decoder" 4 100 (Some 25%Z)) w0
    = Return "run_A3C_Decoder4-1_recon_25N_ep100".
Proof. split; reflexivity. Qed.

(** C6: the filename is a function of the five arguments alone: the state the
    call starts from, whatever earlier calls made of it, does not enter the
    result, and a call made after another returns what it returns alone. *)
Theorem generate_model_filename_deterministic
    (prefix model_name : string) (input_size episodes : Z) (steps : option Z) :
  (∀ w1 w2 : world,
     result_of (generate_model_filename prefix model_name input_size episodes steps) w1
     = result_of (generate_model_filename prefix model_name input_size episodes steps) w2) ∧
  (∀ (prefix' model_name' : string) (input_size' episodes' : Z)
     (steps' : option Z) (w : world),
     result_of
       (generate_model_filename prefix' model_name' input_size' episodes' steps';;
        generate_model_filename prefix model_name input_size episodes steps) w
     = result_of (generate_model_filename prefix model_name input_size episodes steps) w).
Proof. split; reflexivity. Qed.

(** Where no integer is refused, the call returns a string and raises
    nothing; all it leaves behind is one more collection. *)
Lemma generate_model_filename_total
    (prefix model_name : string) (input_size episodes : Z) (steps : option Z)
    (w : world) :
  ∃ filename : string,
    generate_model_filename prefix model_name input_size episodes steps w
    = (Return filename, World (S (gc_collections w)) (queues w)).
Proof. eexists. reflexivity. Qed.

(** The two sides of the limit, without computing the power. *)
Lemma exceeds_str_digits_small (z : Z) :
  (Z.abs z < 10 ^ 9)%Z → exceeds_str_digits z = false.
Proof.
  intros Hz. unfold exceeds_str_digits. apply Z.leb_gt.
  eapply Z.lt_le_trans; [exact Hz |].
  apply Z.pow_le_mono_r; [reflexivity | unfold int_max_str_digits; easy].
Qed.

Lemma exceeds_str_digits_power : exceeds_str_digits (10 ^ 4300) = true.
Proof.
  unfold exceeds_str_digits, int_max_str_digits. apply Z.leb_le.
  rewrite Z.abs_eq by (apply Z.pow_nonneg; easy). apply Z.le_refl.
Qed.

(** The function with the digit limit is the function without it as long as
    every rendered integer is within the limit, and raises ValueError before
    the collector runs as soon as one is not. *)
Lemma generate_model_filename_limited_run
    (prefix model_name : string) (input_size episodes : Z) (steps : option Z)
    (w : world) :
  generate_model_filename_limited prefix model_name input_size episodes steps w
  = if existsb exceeds_str_digits (rendered_ints input_size episodes steps)
    then (Raise ValueError, w)
    else generate_model_filename prefix model_name input_size episodes steps w.
Proof.
  unfold generate_model_filename_limited, generate_model_filename, render_int,
    rendered_ints.
  destruct (String.eqb model_name "Encoder"), steps as [n|];
    cbn [existsb];
    destruct (exceeds_str_digits input_size);
    try destruct (exceeds_str_digits n);
    destruct (exceeds_str_digits episodes);
    reflexivity.
Qed.

(** C7 (as amended): for all strings and all integers of at most 4300 decimal
    digits (the step count given or None) the call returns a string, the one
    of the template, and raises nothing; when an integer it renders has more
    digits, the f-string raises ValueError and the collector does not run. *)
Theorem generate_model_filename_total_within_limit
    (prefix model_name : string) (input_size episodes : Z) (steps : option Z)
    (w : world) :
  (existsb exceeds_str_digits (rendered_ints input_size episodes steps) = false →
   ∃ filename : string,
     generate_model_filename_limited prefix model_name input_size episodes steps w
     = (Return filename, World (S (gc_collections w)) (queues w)) ∧
     result_of (generate_model_filename prefix model_name input_size episodes steps) w
     = Return filename) ∧
  (existsb exceeds_str_digits (rendered_ints input_size episodes steps) = true →
   generate_model_filename_limited prefix model_name input_size episodes steps w
   = (Raise ValueError, w)).
Proof.
  rewrite generate_model_filename_limited_run. split; intros ->; [|done].
  by eexists.
Qed.

Lemma generate_model_filename_total_within_limit_witness :
  existsb exceeds_str_digits (rendered_ints 4 100 (Some 25%Z)) = false ∧
  ∃ filename : string,
    generate_model_filename_limited "run_" "Decoder" 4 100 (Some 25%Z) w0
    = (Return filename, World (S (gc_collections w0)) (queues w0)) ∧
    result_of (generate_model_filename "run_" "Decoder" 4 100 (Some 25%Z)) w0
    = Return filename.
Proof.
  assert (Hok : existsb exceeds_str_digits (rendered_ints 4 100 (Some 25%Z)) = false).
  { cbn [rendered_ints existsb].
    rewrite !exceeds_str_digits_small by reflexivity. reflexivity. }
  split; [exact Hok |].
  exact (proj1 (generate_model_filename_total_within_limit
                  "run_" "Decoder" 4 100 (Some 25%Z) w0) Hok).
Defined.

(** C7 (as stated) fails: an input size of 4301 digits makes the call raise
    ValueError. *)
Lemma generate_model_filename_refuses_long_int :
  generate_model_filename_limited "" "Encoder" (10 ^ 4300) 100 None w0
  = (Raise ValueError, w0).
Proof.
  rewrite generate_model_filename_limited_run.
  cbn [rendered_ints existsb]. by rewrite exceeds_str_digits_power.
Qed.

(** C9 (as amended): with model_name "Encoder" the prefix has no effect on the
    filename, which is the text "A3C&Encoder", the input size, "-1" and the
    episode suffix, with the prefix inserted nowhere. *)
Theorem generate_model_filename_encoder_ignores_prefix
    (p1 p2 : string) (input_size episodes : Z) (steps : option Z) (w1 w2 : world) :
  result_of (generate_model_filename p1 "Encoder" input_size episodes steps) w1
  = result_of (generate_model_filename p2 "Encoder" input_size episodes steps) w2 ∧
  result_of (generate_model_filename p1 "Encoder" input_size episodes steps) w1
  = Return ("A3C&Encoder" +:+ str_int input_size +:+ "-1" +:+
            match steps with
            | Some n => "_" +:+ str_int n +:+ "N_ep" +:+ str_int episodes
            | None => "_ep" +:+ str_int episodes
            end).
Proof. by rewrite !generate_model_filename_encoder. Qed.

(** C9 (as stated) fails in its last part: a prefix that occurs in the fixed
    text of the template is contained in the filename. *)
Lemma generate_model_filename_encoder_contains_prefix :
  result_of (generate_model_filename "A3C" "Encoder" 4 100 None) w0
    = Return "A3C&Encoder4-1_ep100" ∧
  str_contains "A3C&Encoder4-1_ep100" "A3C" = true.
Proof. split; reflexivity. Qed.

(** ** Episode logging *)

(** C5: log_episode_results puts exactly one record on result_queue, the list
    [episode_reward, success, episode_spl] in that order, at the back; it
    returns None, and the collector count and every other queue stay as they
    were. *)
Theorem log_episode_results_puts_record
    (result_queue : nat) (items : list pyval)
    (episode_reward success episode_spl : pyval) (w : world) :
  queues w !! result_queue = Some items →
  let w' := state_after
              (log_episode_results result_queue episode_reward success episode_spl) w in
  result_of (log_episode_results result_queue episode_reward success episode_spl) w
    = Return tt ∧
  queues w' !! result_queue
    = Some (items ++ [PyList [episode_reward; success; episode_spl]]) ∧
  (∀ q : nat, q ≠ result_queue → queues w' !! q = queues w !! q) ∧
  gc_collections w' = gc_collections w.
Proof.
  intros Hq. unfold log_episode_results, queue_put. py_run. rewrite Hq. py_run.
  unfold set_queues; simpl.
  split_and!; [done | by rewrite lookup_insert_eq | | done].
  intros q Hne. by rewrite lookup_insert_ne.
Qed.

Lemma log_episode_results_puts_record_witness :
  queues (World 2 {[ 7 := [PyNone] ]}) !! 7 = Some [PyNone] ∧
  queues (state_after
            (log_episode_results 7 (PyFloat (Q2Qc (3 # 2))) (PyBool true)
               (PyFloat (Q2Qc (1 # 4))))
            (World 2 {[ 7 := [PyNone] ]})) !! 7
  = Some [PyNone;
          PyList [PyFloat (Q2Qc (3 # 2)); PyBool true; PyFloat (Q2Qc (1 # 4))]].
Proof.
  split; [reflexivity |].
  apply (log_episode_results_puts_record 7 [PyNone]). reflexivity.
Defined.

(** ** Array to tensor *)

Section NumpyToTensorFacts.
Context {elem : Type} `{!ElemCast elem}.


(** When the dtypes differ the array goes through [astype] first. *)
Lemma numpy_to_tensor_other_dtype (array : ndarray elem) (dtype : np_dtype) :
  nd_dtype array ≠ dtype →
  numpy_to_tensor array dtype = from_numpy (astype array dtype).
Proof. intros Hne. unfold numpy_to_tensor. by rewrite bool_decide_eq_true_2. Qed.

Lemma numpy_of_torch_of_numpy (d : np_dtype) (d' : torch_dtype) :
  torch_of_numpy d = Some d' → numpy_of_torch d' = Some d.
Proof. destruct d; simpl; intros [= <-]; reflexivity. Qed.


End NumpyToTensorFacts.


Example numpy_to_tensor_float32 :
  @numpy_to_tensor Z demo_cast (NdArray np_float32 [3] [10; 20; 30]%Z) np_float32
  = Return (Tensor torch_float32 [3] [10; 20; 30]%Z).
Proof. reflexivity. Qed.

(** ** Discounted returns *)

(** The loop state after the rewards [rs] have been consumed from the back. *)
Lemma v_target_loop_cons (gamma r : Qc) (rs : list Qc) :
  fold_left (v_target_step gamma) (rev (r :: rs)) (0%Qc, [])
  = v_target_step gamma (fold_left (v_target_step gamma) (rev rs) (0%Qc, [])) r.
Proof. simpl rev. by rewrite fold_left_app. Qed.

Lemma v_target_loop_state (gamma : Qc) (rs : list Qc) :
  fold_left (v_target_step gamma) (rev rs) (0%Qc, [])
  = (spec_discounted_sum gamma rs, suffix_returns gamma rs).
Proof.
  induction rs as [|r rs IH]; [reflexivity |].
  rewrite v_target_loop_cons, IH. reflexivity.
Qed.

Lemma buffer_v_target_suffix_returns (rs : list Qc) (gamma : Qc) :
  buffer_v_target rs gamma = suffix_returns gamma rs.
Proof. unfold buffer_v_target. by rewrite v_target_loop_state. Qed.

Lemma length_suffix_returns (gamma : Qc) (rs : list Qc) :
  length (suffix_returns gamma rs) = length rs.
Proof. induction rs; simpl; congruence. Qed.

Lemma lookup_suffix_returns (gamma : Qc) (rs : list Qc) (i : nat) :
  i < length rs →
  suffix_returns gamma rs !! i = Some (spec_discounted_sum gamma (drop i rs)).
Proof.
  revert i. induction rs as [|r rs IH]; intros i Hi; simpl in Hi; [lia |].
  destruct i as [|i]; [reflexivity |]. simpl. apply IH. lia.
Qed.

Lemma spec_power_sum_shift (gamma : Qc) (k : nat) (rs : list Qc) :
  spec_power_sum gamma k rs = (gamma ^ k * spec_discounted_sum gamma rs)%Qc.
Proof.
  revert k. induction rs as [|r rs IH]; intros k; simpl.
  - ring.
  - rewrite IH. simpl. ring.
Qed.

Lemma spec_power_sum_discounted (gamma : Qc) (rs : list Qc) :
  spec_power_sum gamma 0 rs = spec_discounted_sum gamma rs.
Proof. rewrite spec_power_sum_shift. simpl. ring. Qed.

(** C1: for rewards [r0,...,rn] and any discount gamma, buffer_v_target has as
    many entries as there are rewards, its last entry is r_n, each earlier
    entry is v_i = r_i + gamma * v_(i+1), and v_i is the sum over j >= i of
    gamma^(j-i) * r_j. *)
Theorem buffer_v_target_backward_recurrence (rewards : list Qc) (gamma : Qc) :
  let v := buffer_v_target rewards gamma in
  length v = length rewards ∧
  (∀ (n : nat) (r : Qc),
     S n = length rewards → rewards !! n = Some r → v !! n = Some r) ∧
  (∀ (i : nat) (r : Qc),
     S i < length rewards → rewards !! i = Some r →
     ∃ v_next : Qc, v !! S i = Some v_next ∧ v !! i = Some (r + gamma * v_next)%Qc) ∧
  (∀ i : nat,
     i < length rewards → v !! i = Some (spec_power_sum gamma 0 (drop i rewards))).
Proof.
  intros v. subst v. rewrite buffer_v_target_suffix_returns.
  split_and!.
  - apply length_suffix_returns.
  - intros n r Hn Hr. rewrite lookup_suffix_returns by lia.
    rewrite (drop_S _ _ _ Hr), drop_ge by lia. simpl. f_equal. ring.
  - intros i r Hi Hr. eexists. split.
    + apply lookup_suffix_returns. lia.
    + rewrite lookup_suffix_returns by lia. by rewrite (drop_S _ _ _ Hr).
  - intros i Hi. rewrite lookup_suffix_returns by lia.
    by rewrite spec_power_sum_discounted.
Qed.

Lemma buffer_v_target_backward_recurrence_witness :
  1 < length [Q2Qc 1; Q2Qc 2; Q2Qc 4] ∧
  buffer_v_target [Q2Qc 1; Q2Qc 2; Q2Qc 4] (Q2Qc (1 # 2)) !! 1
  = Some (spec_power_sum (Q2Qc (1 # 2)) 0 (drop 1 [Q2Qc 1; Q2Qc 2; Q2Qc 4])).
Proof.
  split; [simpl; lia |].
  apply (buffer_v_target_backward_recurrence [Q2Qc 1; Q2Qc 2; Q2Qc 4] (Q2Qc (1 # 2))).
  simpl; lia.
Defined.

(** Rewards 1, 2, 4 at discount 1/2 give the returns 3, 4, 4. *)
Example buffer_v_target_sample :
  buffer_v_target [Q2Qc 1; Q2Qc 2; Q2Qc 4] (Q2Qc (1 # 2))
  = [Q2Qc 3; Q2Qc 4; Q2Qc 4].
Proof.
  unfold buffer_v_target; simpl.
  unfold py_list_insert; simpl. repeat f_equal; apply Qc_is_canon; reflexivity.
Qed.

(** ** Average loss over a data loader *)

Section ComputeEpochLossFacts.
Context {Batch Label Out : Type} `{!EvalKernel Batch Out}.

Lemma py_for_cons {St A B} (x : A) (xs : list A) (acc : B)
    (body : B → A → Py St B) (s : St) :
  py_for (x :: xs) acc body s
  = match body acc x s with
    | (Return acc', s') => py_for xs acc' body s'
    | (Raise e, s') => (Raise e, s')
    end.
Proof. reflexivity. Qed.

(** One turn of the loop in evaluation mode. *)
Lemma epoch_loss_body_eval (total : scalar) (n : Z) (item : Batch * Label)
    (grad : bool) :
  epoch_loss_body (total, n) item (NetMode false grad)
  = (Return (scalar_add_loss total (spec_batch_loss item.1),
             (n + Z.of_nat (size0 (to_device item.1)))%Z),
     NetMode false grad).
Proof. reflexivity. Qed.

(** Once [total_loss] is a tensor, the loop adds the losses and the sample
    counts of the batches that are left. *)
Lemma epoch_loop_tensor (data_loader : list (Batch * Label)) (x : Qc) (n : Z)
    (grad : bool) :
  py_for data_loader (TensorScalar x, n) epoch_loss_body (NetMode false grad)
  = (Return (TensorScalar (x + spec_total_loss data_loader),
             (n + Z.of_nat (spec_total_samples data_loader))%Z),
     NetMode false grad).
Proof.
  revert x n. induction data_loader as [|item rest IH]; intros x n.
  - simpl. py_run. do 3 f_equal; [f_equal; ring | lia].
  - rewrite py_for_cons, epoch_loss_body_eval. simpl scalar_add_loss.
    rewrite IH. simpl. do 3 f_equal; [f_equal; ring | lia].
Qed.

(** The loop from its initial accumulator, over a loader with a first batch. *)
Lemma epoch_loop_nonempty (item : Batch * Label) (rest : list (Batch * Label))
    (grad : bool) :
  py_for (item :: rest) (FloatScalar 0, 0%Z) epoch_loss_body (NetMode false grad)
  = (Return (TensorScalar (spec_total_loss (item :: rest)),
             Z.of_nat (spec_total_samples (item :: rest))),
     NetMode false grad).
Proof.
  rewrite py_for_cons, epoch_loss_body_eval. simpl scalar_add_loss.
  rewrite epoch_loop_tensor. simpl. do 3 f_equal; [f_equal; ring | lia].
Qed.

Lemma spec_total_samples_pos (data_loader : list (Batch * Label)) :
  (∃ item, item ∈ data_loader ∧ 0 < size0 (to_device item.1)) →
  0 < spec_total_samples data_loader.
Proof.
  intros (item & Hin & Hpos).
  induction data_loader as [|item' rest IH]; [by apply elem_of_nil in Hin |].
  apply elem_of_cons in Hin as [<- | Hin]; simpl; [lia |].
  specialize (IH Hin). lia.
Qed.

(** C10: there is no guard against an empty loader. When some batch has a
    positive first dimension, compute_epoch_loss returns the sum of the
    per-batch summed losses divided by the total number of samples, which is
    positive; on an empty data_loader the float 0.0 is divided by the int 0 and
    the call raises ZeroDivisionError. *)
Theorem compute_epoch_loss_average :
  (∀ (data_loader : list (Batch * Label)) (s : net_mode),
     (∃ item, item ∈ data_loader ∧ 0 < size0 (to_device item.1)) →
     0 < spec_total_samples data_loader ∧
     result_of (compute_epoch_loss data_loader) s
     = Return (TensorScalar
                 (spec_total_loss data_loader
                  / Q2Qc (inject_Z (Z.of_nat (spec_total_samples data_loader)))))) ∧
  (∀ s : net_mode,
     result_of (compute_epoch_loss (@nil (Batch * Label))) s
     = Raise ZeroDivisionError).
Proof.
  split.
  - intros data_loader s Hex.
    pose proof (spec_total_samples_pos data_loader Hex) as Hpos.
    split; [done |].
    destruct data_loader as [|item rest]; [simpl in Hpos; lia |].
    unfold compute_epoch_loss, model_eval, no_grad. py_run.
    simpl training. simpl grad_enabled.
    rewrite epoch_loop_nonempty. py_run. unfold scalar_div.
    destruct (Z.eqb_spec (Z.of_nat (spec_total_samples (item :: rest))) 0) as [Hz|_];
      [lia | reflexivity].
  - intros s. reflexivity.
Qed.
End ComputeEpochLossFacts.

Lemma compute_epoch_loss_average_witness :
  (∃ item : list Qc * unit,
     item ∈ [([Q2Qc 1; Q2Qc 2], ()); ([Q2Qc 3], ())] ∧
     0 < @size0 _ _ demo_eval_kernel (@to_device _ _ demo_eval_kernel item.1)) ∧
  result_of (@compute_epoch_loss _ unit _ demo_eval_kernel
               [([Q2Qc 1; Q2Qc 2], ()); ([Q2Qc 3], ())]) (NetMode true true)
  = Return (TensorScalar
              (@spec_total_loss _ unit _ demo_eval_kernel
                 [([Q2Qc 1; Q2Qc 2], ()); ([Q2Qc 3], ())]
               / Q2Qc (inject_Z (Z.of_nat
                   (@spec_total_samples _ unit _ demo_eval_kernel
                      [([Q2Qc 1; Q2Qc 2], ()); ([Q2Qc 3], ())]))))).
Proof.
  assert (Hex : ∃ item : list Qc * unit,
            item ∈ [([Q2Qc 1; Q2Qc 2], ()); ([Q2Qc 3], ())] ∧
            0 < @size0 _ _ demo_eval_kernel (@to_device _ _ demo_eval_kernel item.1)).
  { exists ([Q2Qc 3], ()). split; [set_solver | simpl; lia]. }
  split; [exact Hex |].
  apply (proj1 (@compute_epoch_loss_average _ unit _ demo_eval_kernel) _ _ Hex).
Defined.

(** A loader whose batches are all empty does not raise: the tensor total is
    divided by zero and the result is not finite. *)
Example compute_epoch_loss_empty_batches :
  result_of (@compute_epoch_loss _ unit _ demo_eval_kernel [([], ()); ([], ())])
            (NetMode true true)
  = Return TensorNonFinite.
Proof. reflexivity. Qed.

(** Three samples with losses 1, 2 and 3: the average is 2. *)
Example compute_epoch_loss_sample :
  result_of (@compute_epoch_loss _ unit _ demo_eval_kernel
               [([Q2Qc 1; Q2Qc 2], ()); ([Q2Qc 3], ())]) (NetMode true true)
  = Return (TensorScalar (Q2Qc 2)).
Proof.
  py_run. unfold compute_epoch_loss. py_run. simpl.
  do 2 f_equal. apply Qc_is_canon. reflexivity.
Qed.

(** ** Synchronising the local model *)

Section SyncAndOptimizeFacts.
Context {T O Obs Hid Loss : Type} `{!TrainKernel T O Obs Hid Loss}.

Lemma state_dict_cons (n : string) (p : param T) (m : nn_module T) :
  state_dict ((n, p) :: m) = <[n := p_data p]> (state_dict m).
Proof. reflexivity. Qed.

Lemma dom_state_dict (m : nn_module T) :
  dom (state_dict m) = list_to_set m.*1.
Proof.
  induction m as [|[n p] m IH]; [apply dom_empty_L |].
  rewrite state_dict_cons, dom_insert_L, IH. reflexivity.
Qed.

(** What a model holds after every parameter has taken the value [sd] stores
    under its name. *)
Lemma state_dict_loaded (m : nn_module T) (sd : gmap string T) (n : string) :
  (∀ p, p ∈ m → ∃ v, sd !! p.1 = Some v ∧ same_shape (p_data p.2) v = true) →
  state_dict (load_param sd <$> m) !! n
  = if decide (n ∈ m.*1) then sd !! n else None.
Proof.
  induction m as [|[k p] m IH]; intros Hall.
  - rewrite decide_False; [done | apply not_elem_of_nil].
  - assert (Hrest : ∀ q, q ∈ m → ∃ v, sd !! q.1 = Some v ∧
                              same_shape (p_data q.2) v = true).
    { intros q Hq. apply Hall. by apply list_elem_of_further. }
    destruct (Hall (k, p)) as (v & Hv & Hshape); [apply list_elem_of_here |].
    rewrite fmap_cons. unfold load_param at 1. cbn [fst snd] in *.
    rewrite Hv, Hshape, state_dict_cons. cbn [p_data].
    destruct (decide (k = n)) as [->|Hne].
    + rewrite lookup_insert_eq, decide_True by apply list_elem_of_here. done.
    + rewrite lookup_insert_ne by done. rewrite (IH Hrest).
      destruct (decide (n ∈ m.*1)) as [Hin|Hnin].
      * rewrite decide_True; [done | by apply list_elem_of_further].
      * rewrite decide_False; [done |].
        intros [Heq|Hin]%elem_of_cons; [by apply Hne | by apply Hnin].
Qed.

(** A load that succeeds leaves the model with exactly the loaded state. *)
Lemma load_state_dict_state (m : nn_module T) (sd : gmap string T) :
  load_complete m sd = true → state_dict (load_param sd <$> m) = sd.
Proof.
  unfold load_complete. intros [Hdom Hshapes]%andb_prop.
  apply bool_decide_eq_true in Hdom. rewrite dom_state_dict in Hdom.
  assert (Hall : ∀ p, p ∈ m → ∃ v, sd !! p.1 = Some v ∧
                            same_shape (p_data p.2) v = true).
  { intros q Hq.
    assert (Hkey : is_Some (sd !! q.1)).
    { apply elem_of_dom. rewrite <- Hdom. apply elem_of_list_to_set.
      by apply list_elem_of_fmap_2. }
    destruct Hkey as [v Hv]. exists v. split; [done |].
    rewrite forallb_forall in Hshapes.
    specialize (Hshapes q (proj1 (list_elem_of_In _ _) Hq)).
    by rewrite Hv in Hshapes. }
  apply map_eq. intros n. rewrite state_dict_loaded by done.
  destruct (decide (n ∈ m.*1)) as [|Hn]; [done |].
  symmetry. apply not_elem_of_dom. rewrite <- Hdom.
  by rewrite elem_of_list_to_set.
Qed.

(** None of the steps before the load renames, adds or drops a parameter. *)
Lemma names_alter (f : param T → param T) (i : nat) (m : nn_module T) :
  (alter (prod_map id f) i m).*1 = m.*1.
Proof.
  revert i. induction m as [|[n p] m IH]; intros [|i]; simpl; [done .. |].
  f_equal. apply IH.
Qed.

Lemma names_update_param (f : param T → param T) (r : model_id * nat)
    (st : train_state T O) :
  (local_model (update_param f r st)).*1 = (local_model st).*1 ∧
  (global_model (update_param f r st)).*1 = (global_model st).*1.
Proof.
  unfold update_param. destruct r as [[] i]; simpl; by rewrite names_alter.
Qed.

Lemma names_zero_grad (refs : list (model_id * nat)) (st : train_state T O) :
  let st' := foldl (λ st r, update_param (λ p, Param (p_data p) None) r st) st refs in
  (local_model st').*1 = (local_model st).*1 ∧
  (global_model st').*1 = (global_model st).*1.
Proof.
  revert st. induction refs as [|r refs IH]; intros st; [done |].
  simpl. destruct (IH (update_param (λ p, Param (p_data p) None) r st)) as [Hl Hg].
  destruct (names_update_param (λ p, Param (p_data p) None) r st) as [Hl' Hg'].
  split; congruence.
Qed.

Lemma names_accumulate_grads (m : nn_module T) (gs : list (option T)) :
  (accumulate_grads m gs).*1 = m.*1.
Proof.
  revert gs. induction m as [|[n p] m IH]; intros [|g gs]; simpl; [done .. |].
  f_equal; [|apply IH].
  unfold accumulate_grad. simpl. by destruct g, (p_grad p).
Qed.

Lemma names_share_grads (local global : nn_module T) :
  (share_grads local global).*1 = global.*1.
Proof.
  revert global. induction local as [|lp local IH]; intros [|gp global];
    simpl; [done .. |].
  f_equal; [|apply IH]. by destruct (p_grad lp.2).
Qed.

Lemma names_step_params (o : O) (k : nat) (refs : list (model_id * nat))
    (st : train_state T O) :
  (local_model (step_params o k refs st)).*1 = (local_model st).*1 ∧
  (global_model (step_params o k refs st)).*1 = (global_model st).*1.
Proof.
  revert k st. induction refs as [|r refs IH]; intros k st; [done |].
  simpl. destruct (IH (S k) (update_param (step_param o k) r st)) as [Hl Hg].
  destruct (names_update_param (step_param o k) r st) as [Hl' Hg'].
  split; congruence.
Qed.

(** When the loss can be computed, the steps up to [optimizer.step()] run to
    the end and keep the parameter names of both models. *)
Lemma optimize_global_returns (roll : rollout Obs Hid) (gamma : Qc)
    (st : train_state T O) (loss : Loss) :
  loss_function (buffer_cur_z roll) (buffer_target_z roll)
    (buffer_pre_action roll) (hidden_state roll) (cell_state roll)
    (buffer_action roll) (buffer_v_target (buffer_reward roll) gamma)
    (p_data ∘ snd <$> local_model st) = Return loss →
  ∃ st1 : train_state T O,
    optimize_global roll gamma st = (Return (), st1) ∧
    (local_model st1).*1 = (local_model st).*1 ∧
    (global_model st1).*1 = (global_model st).*1.
Proof.
  intros Hloss. unfold optimize_global. py_run. rewrite Hloss.
  unfold zero_grad, loss_backward, optimizer_step. py_run.
  eexists. split; [reflexivity |]. simpl.
  set (st0 := foldl _ st _).
  destruct (names_zero_grad (opt_params (optim st)) st) as [Hl0 Hg0].
  fold st0 in Hl0, Hg0.
  match goal with
  | |- context [step_params ?o 0 ?refs ?s] =>
      destruct (names_step_params o 0 refs s) as [Hl1 Hg1]
  end.
  rewrite Hl1, Hg1. simpl.
  by rewrite names_share_grads, names_accumulate_grads, Hl0, Hg0.
Qed.

(** With the same parameter names in both models and shapes that fit, as two
    instances of one architecture have, the whole call returns as soon as the
    loss can be computed. *)
Lemma sync_and_optimize_returns (roll : rollout Obs Hid) (gamma : Qc)
    (st : train_state T O) (loss : Loss) :
  loss_function (buffer_cur_z roll) (buffer_target_z roll)
    (buffer_pre_action roll) (hidden_state roll) (cell_state roll)
    (buffer_action roll) (buffer_v_target (buffer_reward roll) gamma)
    (p_data ∘ snd <$> local_model st) = Return loss →
  (local_model st).*1 = (global_model st).*1 →
  (∀ a b : T, same_shape a b = true) →
  ∃ st' : train_state T O, sync_and_optimize roll gamma st = (Return (), st').
Proof.
  intros Hloss Hnames Hshape.
  destruct (optimize_global_returns roll gamma st loss Hloss)
    as (st1 & Hrun & Hl & Hg).
  unfold sync_and_optimize. py_run. rewrite Hrun.
  unfold load_state_dict, load_complete.
  rewrite bool_decide_eq_true_2
    by (rewrite !dom_state_dict; congruence).
  rewrite (proj2 (forallb_forall _ _)).
  - py_run. by eexists.
  - intros q _. destruct (_ !! _); [apply Hshape | done].
Qed.

(** C8: when sync_and_optimize returns, the steps up to optimizer.step() have
    run, the global model is as that step left it, and the local model's state
    dict is the global model's: the parameters of the two models are equal. *)
Theorem sync_and_optimize_models_equal
    (roll : rollout Obs Hid) (gamma : Qc) (st st' : train_state T O) :
  sync_and_optimize roll gamma st = (Return (), st') →
  ∃ st1 : train_state T O,
    optimize_global roll gamma st = (Return (), st1) ∧
    global_model st' = global_model st1 ∧
    state_dict (local_model st') = state_dict (global_model st').
Proof.
  unfold sync_and_optimize. py_run.
  destruct (optimize_global roll gamma st) as [[[]|e] st1]; [|done].
  unfold load_state_dict.
  destruct (load_complete (local_model st1) (state_dict (global_model st1)))
    eqn:Hload; [|done].
  intros [= <-]. exists st1. split_and!; [done .. |].
  simpl. exact (load_state_dict_state _ _ Hload).
Qed.
End SyncAndOptimizeFacts.

Lemma sync_and_optimize_models_equal_witness :
  @sync_and_optimize _ _ _ _ _ demo_train_kernel demo_rollout (Q2Qc (9 # 10))
    demo_train_state
  = (Return (),
     TrainState [("w", Param 0%Z (Some 1%Z)); ("b", Param 1%Z (Some 1%Z))]
                [("w", Param 0%Z (Some 1%Z)); ("b", Param 1%Z (Some 1%Z))]
                (Optimizer [(GlobalModel, 0); (GlobalModel, 1)] ())
                (World 1 ∅)) ∧
  state_dict [("w", Param 0%Z (Some 1%Z)); ("b", Param 1%Z (Some 1%Z))]
  = state_dict [("w", Param 0%Z (Some 1%Z)); ("b", Param 1%Z (Some 1%Z))].
Proof.
  assert (Hrun :
    @sync_and_optimize _ _ _ _ _ demo_train_kernel demo_rollout (Q2Qc (9 # 10))
      demo_train_state
    = (Return (),
       TrainState [("w", Param 0%Z (Some 1%Z)); ("b", Param 1%Z (Some 1%Z))]
                  [("w", Param 0%Z (Some 1%Z)); ("b", Param 1%Z (Some 1%Z))]
                  (Optimizer [(GlobalModel, 0); (GlobalModel, 1)] ())
                  (World 1 ∅))) by (vm_compute; reflexivity).
  split; [exact Hrun |].
  destruct (@sync_and_optimize_models_equal _ _ _ _ _ demo_train_kernel
              _ _ _ _ Hrun) as (st1 & _ & _ & Heq).
  exact Heq.
Defined.

(** * Further properties of the helpers *)

(** ** [numpy_to_tensor]: what the returned tensor is *)

Section NumpyToTensorMore.
Context {elem : Type} `{!ElemCast elem}.

(** X1: whatever the dtype of the array, a tensor that numpy_to_tensor returns
    has the torch dtype of the requested dtype, the shape of the array and as
    many elements. *)
Theorem numpy_to_tensor_requested_dtype
    (array : ndarray elem) (dtype : np_dtype) (t : tensor elem) :
  numpy_to_tensor array dtype = Return t →
  torch_of_numpy dtype = Some (t_dtype t) ∧
  t_shape t = nd_shape array ∧
  length (t_data t) = length (nd_data array).
Proof.
  unfold numpy_to_tensor, from_numpy. case_bool_decide as Hd.
  - simpl. destruct (torch_of_numpy dtype) as [d|]; [|done].
    intros [= <-]. simpl. by rewrite length_fmap.
  - subst dtype.
    destruct (torch_of_numpy (nd_dtype array)) as [d|]; [|done].
    by intros [= <-].
Qed.

(** X2: converting is idempotent: the tensor numpy_to_tensor returns, taken
    back to NumPy and converted again to the same dtype, is the same tensor,
    and no second cast happens. *)
Theorem numpy_to_tensor_idempotent
    (array : ndarray elem) (dtype : np_dtype) (t : tensor elem) :
  numpy_to_tensor array dtype = Return t →
  ∃ back : ndarray elem,
    tensor_numpy t = Return back ∧
    nd_dtype back = dtype ∧
    numpy_to_tensor back dtype = Return t.
Proof.
  intros Hrun.
  destruct (numpy_to_tensor_requested_dtype _ _ _ Hrun) as (Hd & _ & _).
  unfold tensor_numpy. rewrite (numpy_of_torch_of_numpy _ _ Hd).
  eexists. split_and!; [reflexivity .. |].
  unfold numpy_to_tensor; simpl.
  rewrite bool_decide_eq_false_2 by (intros H; by apply H).
  unfold from_numpy; simpl. rewrite Hd. by destruct t.
Qed.
End NumpyToTensorMore.

Lemma numpy_to_tensor_requested_dtype_witness :
  @numpy_to_tensor Z demo_cast (NdArray np_int64 [2] [1; 2]%Z) np_float32
    = Return (Tensor torch_float32 [2] [1; 2]%Z) ∧
  torch_of_numpy np_float32 = Some torch_float32.
Proof.
  split; [reflexivity |].
  apply (@numpy_to_tensor_requested_dtype Z demo_cast
           (NdArray np_int64 [2] [1; 2]%Z) np_float32
           (Tensor torch_float32 [2] [1; 2]%Z)).
  reflexivity.
Defined.

Lemma numpy_to_tensor_idempotent_witness :
  @numpy_to_tensor Z demo_cast (NdArray np_int64 [2] [1; 2]%Z) np_float32
    = Return (Tensor torch_float32 [2] [1; 2]%Z) ∧
  ∃ back : ndarray Z,
    tensor_numpy (Tensor torch_float32 [2] [1; 2]%Z) = Return back ∧
    nd_dtype back = np_float32 ∧
    @numpy_to_tensor Z demo_cast back np_float32
      = Return (Tensor torch_float32 [2] [1; 2]%Z).
Proof.
  split; [reflexivity |].
  apply (@numpy_to_tensor_idempotent Z demo_cast
           (NdArray np_int64 [2] [1; 2]%Z)).
  reflexivity.
Defined.

(** ** [compute_epoch_loss]: the three ways a call can end *)

Lemma Q2Qc_inject_Z_add (a b : Z) :
  Q2Qc (inject_Z (a + b)) = (Q2Qc (inject_Z a) + Q2Qc (inject_Z b))%Qc.
Proof.
  apply Qc_is_canon. simpl. rewrite !Qred_correct, inject_Z_plus. reflexivity.
Qed.

Lemma Q2Qc_inject_Z_nonzero (n : Z) : n ≠ 0%Z → Q2Qc (inject_Z n) ≠ Q2Qc 0.
Proof.
  intros Hn Heq. apply Hn.
  assert (Hq : Qeq (inject_Z n) 0) by (apply Q2Qc_eq_iff; exact Heq).
  unfold Qeq in Hq. simpl in Hq. lia.
Qed.

Section ComputeEpochLossMore.
Context {Batch Label Out : Type} `{!EvalKernel Batch Out}.

(** The outcome and the final state, for every loader and starting state. *)
Lemma compute_epoch_loss_run (data_loader : list (Batch * Label)) (s : net_mode) :
  compute_epoch_loss data_loader s
  = (match data_loader with
     | [] => Raise ZeroDivisionError
     | _ :: _ =>
         if (Z.of_nat (spec_total_samples data_loader) =? 0)%Z
         then Return TensorNonFinite
         else Return (TensorScalar
                        (spec_total_loss data_loader
                         / Q2Qc (inject_Z (Z.of_nat (spec_total_samples data_loader)))))
     end,
     NetMode false (grad_enabled s)).
Proof.
  destruct data_loader as [|item rest]; [reflexivity |].
  unfold compute_epoch_loss, model_eval, no_grad. py_run.
  simpl training. simpl grad_enabled.
  rewrite epoch_loop_nonempty. py_run. unfold scalar_div.
  by destruct (Z.of_nat (spec_total_samples (item :: rest)) =? 0)%Z.
Qed.

(** X3: however the call ends, with a value or with ZeroDivisionError, it
    leaves the model in evaluation mode (training mode is not restored) and
    the autograd mode as it found it. *)
Theorem compute_epoch_loss_leaves_eval_mode
    (data_loader : list (Batch * Label)) (s : net_mode) :
  state_after (compute_epoch_loss data_loader) s = NetMode false (grad_enabled s).
Proof. unfold state_after. by rewrite compute_epoch_loss_run. Qed.

(** X4: a loader that yields batches, all of them with first dimension 0, does
    not raise: the tensor total is divided by zero and the value returned is
    not finite. *)
Theorem compute_epoch_loss_no_samples
    (data_loader : list (Batch * Label)) (s : net_mode) :
  data_loader ≠ [] →
  (∀ item, item ∈ data_loader → size0 (to_device item.1) = 0) →
  result_of (compute_epoch_loss data_loader) s = Return TensorNonFinite.
Proof.
  intros Hne Hall. unfold result_of. rewrite compute_epoch_loss_run.
  destruct data_loader as [|item rest]; [done |].
  assert (Hz : spec_total_samples (item :: rest) = 0).
  { clear Hne. induction (item :: rest) as [|x l IH]; [done |].
    simpl. rewrite (Hall x) by apply list_elem_of_here.
    rewrite IH; [done |]. intros y Hy. apply Hall. by apply list_elem_of_further. }
  by rewrite Hz.
Qed.

Lemma spec_total_loss_app (l1 l2 : list (Batch * Label)) :
  spec_total_loss (l1 ++ l2) = (spec_total_loss l1 + spec_total_loss l2)%Qc.
Proof. induction l1 as [|x l1 IH]; simpl; [ring | rewrite IH; ring]. Qed.

Lemma spec_total_samples_app (l1 l2 : list (Batch * Label)) :
  spec_total_samples (l1 ++ l2) = spec_total_samples l1 + spec_total_samples l2.
Proof. induction l1 as [|x l1 IH]; simpl; [done | rewrite IH; lia]. Qed.

(** A finite average comes from a loader with samples. *)
Lemma compute_epoch_loss_finite (data_loader : list (Batch * Label))
    (s : net_mode) (avg : Qc) :
  result_of (compute_epoch_loss data_loader) s = Return (TensorScalar avg) →
  0 < spec_total_samples data_loader ∧
  avg = (spec_total_loss data_loader
         / Q2Qc (inject_Z (Z.of_nat (spec_total_samples data_loader))))%Qc.
Proof.
  unfold result_of. rewrite compute_epoch_loss_run.
  destruct data_loader as [|item rest]; [done |]. cbn [fst].
  destruct (Z.eqb_spec (Z.of_nat (spec_total_samples (item :: rest))) 0);
    [done |].
  intros [= <-]. split; [lia | done].
Qed.

(** X5: the average over two loaders run one after the other is the mean of
    their two averages, weighted by their numbers of samples. *)
Theorem compute_epoch_loss_app
    (l1 l2 : list (Batch * Label)) (s : net_mode) (avg1 avg2 : Qc) :
  result_of (compute_epoch_loss l1) s = Return (TensorScalar avg1) →
  result_of (compute_epoch_loss l2) s = Return (TensorScalar avg2) →
  let n1 := Q2Qc (inject_Z (Z.of_nat (spec_total_samples l1))) in
  let n2 := Q2Qc (inject_Z (Z.of_nat (spec_total_samples l2))) in
  result_of (compute_epoch_loss (l1 ++ l2)) s
  = Return (TensorScalar ((n1 * avg1 + n2 * avg2) / (n1 + n2))).
Proof.
  intros [Hp1 ->]%compute_epoch_loss_finite [Hp2 ->]%compute_epoch_loss_finite n1 n2.
  unfold result_of. rewrite compute_epoch_loss_run.
  destruct (l1 ++ l2) as [|item rest] eqn:Happ.
  { apply (f_equal length) in Happ. rewrite length_app in Happ.
    destruct l1; simpl in *; lia. }
  rewrite <- Happ. cbn [fst].
  rewrite spec_total_samples_app, spec_total_loss_app.
  destruct (Z.eqb_spec (Z.of_nat (spec_total_samples l1 + spec_total_samples l2)) 0);
    [lia |].
  do 2 f_equal. rewrite Nat2Z.inj_add, Q2Qc_inject_Z_add. fold n1 n2.
  assert (Hn1 : n1 ≠ Q2Qc 0) by (apply Q2Qc_inject_Z_nonzero; lia).
  assert (Hn2 : n2 ≠ Q2Qc 0) by (apply Q2Qc_inject_Z_nonzero; lia).
  assert (Hn : (n1 + n2)%Qc ≠ Q2Qc 0).
  { unfold n1, n2. rewrite <- Q2Qc_inject_Z_add.
    apply Q2Qc_inject_Z_nonzero. lia. }
  field. split_and!; done.
Qed.

Lemma spec_total_loss_perm (l1 l2 : list (Batch * Label)) :
  l1 ≡ₚ l2 → spec_total_loss l1 = spec_total_loss l2.
Proof.
  induction 1 as [|x l l' _ IH|x y l|l l' l'' _ IH1 _ IH2]; simpl;
    [done | by rewrite IH | ring | congruence].
Qed.

Lemma spec_total_samples_perm (l1 l2 : list (Batch * Label)) :
  l1 ≡ₚ l2 → spec_total_samples l1 = spec_total_samples l2.
Proof.
  induction 1 as [|x l l' _ IH|x y l|l l' l'' _ IH1 _ IH2]; simpl;
    [done | by rewrite IH | lia | congruence].
Qed.

(** X6: the value returned does not depend on the order in which the loader
    yields its batches. *)
Theorem compute_epoch_loss_order_independent
    (l1 l2 : list (Batch * Label)) (s : net_mode) :
  l1 ≡ₚ l2 →
  result_of (compute_epoch_loss l1) s = result_of (compute_epoch_loss l2) s.
Proof.
  intros Hperm. unfold result_of. rewrite !compute_epoch_loss_run. cbn [fst].
  rewrite (spec_total_loss_perm _ _ Hperm), (spec_total_samples_perm _ _ Hperm).
  destruct l1, l2; [done | | | done].
  - by apply Permutation_nil_cons in Hperm.
  - symmetry in Hperm. by apply Permutation_nil_cons in Hperm.
Qed.
End ComputeEpochLossMore.

Lemma compute_epoch_loss_no_samples_witness :
  ([([] : list Qc, ()); ([], ())] ≠ [] ∧
   ∀ item : list Qc * unit,
     item ∈ [([] : list Qc, ()); ([], ())] →
     @size0 _ _ demo_eval_kernel (@to_device _ _ demo_eval_kernel item.1) = 0) ∧
  result_of (@compute_epoch_loss _ unit _ demo_eval_kernel [([], ()); ([], ())])
            (NetMode true true)
  = Return TensorNonFinite.
Proof.
  assert (Hall : ∀ item : list Qc * unit,
            item ∈ [([] : list Qc, ()); ([], ())] →
            @size0 _ _ demo_eval_kernel (@to_device _ _ demo_eval_kernel item.1) = 0).
  { intros item [->|[->|Hin%elem_of_nil]%elem_of_cons]%elem_of_cons;
      [reflexivity | reflexivity | destruct Hin]. }
  split; [split; [discriminate | exact Hall] |].
  apply (@compute_epoch_loss_no_samples _ unit _ demo_eval_kernel);
    [discriminate | exact Hall].
Defined.

Lemma compute_epoch_loss_app_witness :
  (result_of (@compute_epoch_loss _ unit _ demo_eval_kernel [([Q2Qc 1; Q2Qc 2], ())])
             (NetMode true true)
   = Return (TensorScalar (Q2Qc (3 # 2))) ∧
   result_of (@compute_epoch_loss _ unit _ demo_eval_kernel [([Q2Qc 3], ())])
             (NetMode true true)
   = Return (TensorScalar (Q2Qc 3))) ∧
  result_of (@compute_epoch_loss _ unit _ demo_eval_kernel
               ([([Q2Qc 1; Q2Qc 2], ())] ++ [([Q2Qc 3], ())]))
            (NetMode true true)
  = Return (TensorScalar
              ((Q2Qc (inject_Z 2) * Q2Qc (3 # 2) + Q2Qc (inject_Z 1) * Q2Qc 3)
               / (Q2Qc (inject_Z 2) + Q2Qc (inject_Z 1)))).
Proof.
  assert (H1 : result_of (@compute_epoch_loss _ unit _ demo_eval_kernel
                            [([Q2Qc 1; Q2Qc 2], ())]) (NetMode true true)
               = Return (TensorScalar (Q2Qc (3 # 2)))).
  { unfold result_of. rewrite compute_epoch_loss_run. cbn [fst].
    do 2 f_equal; apply Qc_is_canon; reflexivity. }
  assert (H2 : result_of (@compute_epoch_loss _ unit _ demo_eval_kernel
                            [([Q2Qc 3], ())]) (NetMode true true)
               = Return (TensorScalar (Q2Qc 3))).
  { unfold result_of. rewrite compute_epoch_loss_run. cbn [fst].
    do 2 f_equal; apply Qc_is_canon; reflexivity. }
  split; [split; [exact H1 | exact H2] |].
  exact (@compute_epoch_loss_app _ unit _ demo_eval_kernel _ _ _ _ _ H1 H2).
Defined.

Lemma compute_epoch_loss_order_independent_witness :
  [([Q2Qc 1; Q2Qc 2], ()); ([Q2Qc 3], ())] ≡ₚ [([Q2Qc 3], ()); ([Q2Qc 1; Q2Qc 2], ())] ∧
  result_of (@compute_epoch_loss _ unit _ demo_eval_kernel
               [([Q2Qc 1; Q2Qc 2], ()); ([Q2Qc 3], ())]) (NetMode true true)
  = result_of (@compute_epoch_loss _ unit _ demo_eval_kernel
               [([Q2Qc 3], ()); ([Q2Qc 1; Q2Qc 2], ())]) (NetMode true true).
Proof.
  split; [apply perm_swap |].
  apply (@compute_epoch_loss_order_independent _ unit _ demo_eval_kernel).
  apply perm_swap.
Defined.

(** ** [sync_and_optimize]: failure points, frames and invariants *)

Section SyncAndOptimizeMore.
Context {T O Obs Hid Loss : Type} `{!TrainKernel T O Obs Hid Loss}.

Lemma optimize_global_inv (roll : rollout Obs Hid) (gamma : Qc)
    (st st1 : train_state T O) :
  optimize_global roll gamma st = (Return (), st1) →
  ∃ loss : Loss,
    loss_function (buffer_cur_z roll) (buffer_target_z roll)
      (buffer_pre_action roll) (hidden_state roll) (cell_state roll)
      (buffer_action roll) (buffer_v_target (buffer_reward roll) gamma)
      (p_data ∘ snd <$> local_model st) = Return loss ∧
    st1 = after_step loss st.
Proof.
  unfold optimize_global. py_run.
  destruct (loss_function _ _ _ _ _ _ _ _) as [loss|e]; [|done].
  unfold zero_grad, loss_backward, optimizer_step. py_run.
  intros [= <-]. by exists loss.
Qed.

Lemma sync_and_optimize_inv (roll : rollout Obs Hid) (gamma : Qc)
    (st st' : train_state T O) :
  sync_and_optimize roll gamma st = (Return (), st') →
  ∃ (st1 : train_state T O) (m : nn_module T),
    optimize_global roll gamma st = (Return (), st1) ∧
    (load_complete (local_model st1) (state_dict (global_model st1)) = true ∧
     m = load_param (state_dict (global_model st1)) <$> local_model st1) ∧
    st' = TrainState m (global_model st1) (optim st1)
            (World (S (gc_collections (interp st1))) (queues (interp st1))).
Proof.
  unfold sync_and_optimize. py_run.
  destruct (optimize_global roll gamma st) as [[[]|e] st1]; [|done].
  unfold load_state_dict.
  destruct (load_complete (local_model st1) (state_dict (global_model st1)))
    eqn:Hload; [|done].
  intros [= <-]. by eexists st1, _.
Qed.

(** X7: when the loss cannot be computed the exception leaves the call before
    anything has been touched: gradients, parameters, optimiser and collector
    are as they were. *)
Theorem sync_and_optimize_loss_failure
    (roll : rollout Obs Hid) (gamma : Qc) (st : train_state T O) (e : exn) :
  loss_function (buffer_cur_z roll) (buffer_target_z roll)
    (buffer_pre_action roll) (hidden_state roll) (cell_state roll)
    (buffer_action roll) (buffer_v_target (buffer_reward roll) gamma)
    (p_data ∘ snd <$> local_model st) = Raise e →
  sync_and_optimize roll gamma st = (Raise e, st).
Proof.
  intros Hloss. unfold sync_and_optimize, optimize_global. py_run.
  by rewrite Hloss.
Qed.

Lemma names_after_step (loss : Loss) (st : train_state T O) :
  (local_model (after_step loss st)).*1 = (local_model st).*1 ∧
  (global_model (after_step loss st)).*1 = (global_model st).*1.
Proof.
  unfold after_step. simpl.
  set (st0 := foldl _ st _).
  destruct (names_zero_grad (opt_params (optim st)) st) as [Hl0 Hg0].
  fold st0 in Hl0, Hg0.
  match goal with
  | |- context [step_params ?o 0 ?refs ?s] =>
      destruct (names_step_params o 0 refs s) as [Hl1 Hg1]
  end.
  rewrite Hl1, Hg1. simpl.
  by rewrite names_share_grads, names_accumulate_grads, Hl0, Hg0.
Qed.

(** X8: when the two models do not have the same parameter names the call
    raises RuntimeError at the load, and only after the load has gone through
    the parameters: by then the optimiser step has been applied, and every
    local parameter whose name the global model has, with a value of the
    same shape, holds the global value; the other local parameters are as
    they were, no gradient has changed and the collector has not run. *)
Theorem sync_and_optimize_load_failure
    (roll : rollout Obs Hid) (gamma : Qc) (st st1 : train_state T O) :
  optimize_global roll gamma st = (Return (), st1) →
  dom (state_dict (local_model st)) ≠ dom (state_dict (global_model st)) →
  sync_and_optimize roll gamma st
  = (Raise RuntimeError,
     TrainState (load_param (state_dict (global_model st1)) <$> local_model st1)
                (global_model st1) (optim st1) (interp st1)) ∧
  ∀ (i : nat) (n : string) (p : param T),
    local_model st1 !! i = Some (n, p) →
    (load_param (state_dict (global_model st1)) <$> local_model st1) !! i
    = Some (n, Param (match state_dict (global_model st1) !! n with
                      | Some v => if same_shape (p_data p) v then v else p_data p
                      | None => p_data p
                      end) (p_grad p)).
Proof.
  intros Hrun Hdom. split.
  - unfold sync_and_optimize. py_run. rewrite Hrun.
    destruct (optimize_global_inv _ _ _ _ Hrun) as (loss & _ & ->).
    destruct (names_after_step loss st) as [Hl Hg].
    unfold load_state_dict, load_complete.
    rewrite bool_decide_eq_false_2; [done |].
    rewrite !dom_state_dict in *. by rewrite Hl, Hg.
  - intros i n p Hi. rewrite list_lookup_fmap, Hi. cbn [fmap option_fmap option_map].
    f_equal. unfold load_param. cbn [fst snd].
    destruct (state_dict (global_model st1) !! n) as [v|]; [|by destruct p].
    destruct (same_shape (p_data p) v); [done | by destruct p].
Qed.

Lemma load_param_fields (sd : gmap string T) (p : string * param T) :
  (load_param sd p).1 = p.1 ∧ p_grad (load_param sd p).2 = p_grad p.2.
Proof.
  unfold load_param. destruct (sd !! p.1) as [v|]; [|done].
  by destruct (same_shape (p_data p.2) v).
Qed.

Lemma names_load_state_dict (m m' : nn_module T) (sd : gmap string T) :
  load_complete m sd = true ∧ m' = load_param sd <$> m → m'.*1 = m.*1.
Proof.
  intros [_ ->]. rewrite <- list_fmap_compose. apply list_fmap_ext.
  intros _ p _. apply load_param_fields.
Qed.

Lemma optim_update_param (f : param T → param T) (r : model_id * nat)
    (st : train_state T O) :
  optim (update_param f r st) = optim st ∧ interp (update_param f r st) = interp st.
Proof. unfold update_param. by destruct r as [[] i]. Qed.

Lemma optim_zero_grad (refs : list (model_id * nat)) (st : train_state T O) :
  let st' := foldl (λ st r, update_param (λ p, Param (p_data p) None) r st) st refs in
  optim st' = optim st ∧ interp st' = interp st.
Proof.
  revert st. induction refs as [|r refs IH]; intros st; [done |].
  simpl. destruct (IH (update_param (λ p, Param (p_data p) None) r st)) as [Ho Hi].
  destruct (optim_update_param (λ p, Param (p_data p) None) r st) as [Ho' Hi'].
  split; congruence.
Qed.

Lemma optim_step_params (o : O) (k : nat) (refs : list (model_id * nat))
    (st : train_state T O) :
  optim (step_params o k refs st) = optim st ∧
  interp (step_params o k refs st) = interp st.
Proof.
  revert k st. induction refs as [|r refs IH]; intros k st; [done |].
  simpl. destruct (IH (S k) (update_param (step_param o k) r st)) as [Ho Hi].
  destruct (optim_update_param (step_param o k) r st) as [Ho' Hi'].
  split; congruence.
Qed.

Lemma optim_after_step (loss : Loss) (st : train_state T O) :
  opt_params (optim (after_step loss st)) = opt_params (optim st) ∧
  opt_state (optim (after_step loss st)) = opt_advance (opt_state (optim st)) ∧
  interp (after_step loss st) = interp st.
Proof.
  unfold after_step. simpl.
  destruct (optim_zero_grad (opt_params (optim st)) st) as [Ho Hi].
  simpl in Ho, Hi. rewrite Ho.
  match goal with
  | |- context [step_params ?o 0 ?refs ?s] =>
      destruct (optim_step_params o 0 refs s) as [Ho1 Hi1]
  end.
  rewrite Ho1, Hi1. simpl. by rewrite Ho, Hi.
Qed.

(** X9: a call that returns keeps the shape of the worker: the parameter
    names of both models and the parameter list of the optimiser are the same
    as before, the optimiser state has advanced by one step, the queues are
    untouched and the collector has run exactly once. *)
Theorem sync_and_optimize_invariants
    (roll : rollout Obs Hid) (gamma : Qc) (st st' : train_state T O) :
  sync_and_optimize roll gamma st = (Return (), st') →
  (local_model st').*1 = (local_model st).*1 ∧
  (global_model st').*1 = (global_model st).*1 ∧
  opt_params (optim st') = opt_params (optim st) ∧
  opt_state (optim st') = opt_advance (opt_state (optim st)) ∧
  queues (interp st') = queues (interp st) ∧
  gc_collections (interp st') = S (gc_collections (interp st)).
Proof.
  intros (st1 & m & Hrun & Hload & ->)%sync_and_optimize_inv.
  destruct (optimize_global_inv _ _ _ _ Hrun) as (loss & _ & ->).
  destruct (names_after_step loss st) as [Hl Hg].
  destruct (optim_after_step loss st) as (Hp & Ho & Hi).
  cbn [local_model global_model optim interp gc_collections queues].
  rewrite (names_load_state_dict _ _ _ Hload), Hi.
  by split_and!.
Qed.
End SyncAndOptimizeMore.

Section SyncAndOptimizeGrads.
Context {T O Obs Hid Loss : Type} `{!TrainKernel T O Obs Hid Loss}.

(** Updating a parameter with a function that keeps one of its fields keeps
    that field in both models. *)
Lemma field_alter {B} (h : param T → B) (f : param T → param T) (i : nat)
    (m : nn_module T) :
  (∀ p, h (f p) = h p) →
  (h ∘ snd) <$> alter (prod_map id f) i m = (h ∘ snd) <$> m.
Proof.
  intros Hf. revert i. induction m as [|[n p] m IH]; intros [|i]; simpl;
    [done | done | by rewrite Hf | f_equal; apply IH].
Qed.

Lemma field_update_param {B} (h : param T → B) (f : param T → param T)
    (r : model_id * nat) (st : train_state T O) :
  (∀ p, h (f p) = h p) →
  (h ∘ snd) <$> local_model (update_param f r st) = (h ∘ snd) <$> local_model st ∧
  (h ∘ snd) <$> global_model (update_param f r st) = (h ∘ snd) <$> global_model st.
Proof.
  intros Hf. unfold update_param. destruct r as [[] i]; simpl;
    by rewrite field_alter.
Qed.

Lemma grads_step_params (o : O) (k : nat) (refs : list (model_id * nat))
    (st : train_state T O) :
  (p_grad ∘ snd) <$> local_model (step_params o k refs st)
    = (p_grad ∘ snd) <$> local_model st ∧
  (p_grad ∘ snd) <$> global_model (step_params o k refs st)
    = (p_grad ∘ snd) <$> global_model st.
Proof.
  revert k st. induction refs as [|r refs IH]; intros k st; [done |].
  simpl. destruct (IH (S k) (update_param (step_param o k) r st)) as [Hl Hg].
  destruct (field_update_param p_grad (step_param o k) r st) as [Hl' Hg'].
  { intros p. unfold step_param. by destruct (p_grad p) eqn:Hp. }
  split; congruence.
Qed.

Lemma datas_zero_grad (refs : list (model_id * nat)) (st : train_state T O) :
  let st' := foldl (λ st r, update_param (λ p, Param (p_data p) None) r st) st refs in
  (p_data ∘ snd) <$> local_model st' = (p_data ∘ snd) <$> local_model st ∧
  (p_data ∘ snd) <$> global_model st' = (p_data ∘ snd) <$> global_model st.
Proof.
  revert st. induction refs as [|r refs IH]; intros st; [done |].
  simpl. destruct (IH (update_param (λ p, Param (p_data p) None) r st)) as [Hl Hg].
  destruct (field_update_param p_data (λ p, Param (p_data p) None) r st)
    as [Hl' Hg']; [done |].
  split; congruence.
Qed.

Lemma grads_load_state_dict (m m' : nn_module T) (sd : gmap string T) :
  load_complete m sd = true ∧ m' = load_param sd <$> m →
  (p_grad ∘ snd) <$> m' = (p_grad ∘ snd) <$> m.
Proof.
  intros [_ ->]. rewrite <- list_fmap_compose. apply list_fmap_ext.
  intros _ p _. apply load_param_fields.
Qed.

Lemma share_grads_lookup (local global : nn_module T) (i : nat) (g : T) :
  (p_grad ∘ snd) <$> local !! i = Some (Some g) →
  is_Some (global !! i) →
  (p_grad ∘ snd) <$> share_grads local global !! i = Some (Some g).
Proof.
  revert global i. induction local as [|lp local IH]; intros [|gp global] [|i];
    simpl; try done.
  - intros [= Hg] _. by rewrite Hg.
  - apply IH.
Qed.

Lemma datas_share_grads (local global : nn_module T) :
  (p_data ∘ snd) <$> share_grads local global = (p_data ∘ snd) <$> global.
Proof.
  revert global. induction local as [|lp local IH]; intros [|gp global];
    simpl; [done .. |].
  f_equal; [|apply IH]. by destruct (p_grad lp.2).
Qed.

Lemma length_share_grads (local global : nn_module T) :
  length (share_grads local global) = length global.
Proof. by rewrite <- (length_fmap fst), names_share_grads, length_fmap. Qed.

(** The gradients the steps before the load leave in the two models. *)
Lemma grads_after_step (loss : Loss) (st : train_state T O) :
  let st_zero :=
    foldl (λ st r, update_param (λ p, Param (p_data p) None) r st)
          st (opt_params (optim st)) in
  let local_back := accumulate_grads (local_model st_zero) (backward loss) in
  (p_grad ∘ snd) <$> local_model (after_step loss st)
    = (p_grad ∘ snd) <$> local_back ∧
  (p_grad ∘ snd) <$> global_model (after_step loss st)
    = (p_grad ∘ snd) <$> share_grads local_back (global_model st_zero).
Proof.
  intros st_zero local_back. unfold after_step.
  cbn [local_model global_model set_optim].
  match goal with
  | |- context [step_params ?o 0 ?refs ?s] =>
      destruct (grads_step_params o 0 refs s) as [Hl Hg]
  end.
  rewrite Hl, Hg. done.
Qed.

(** X10: at return every global parameter holds the gradient of its partner
    in zip(local.parameters(), global.parameters()) wherever that partner has
    a gradient. *)
Theorem sync_and_optimize_gradients_shared
    (roll : rollout Obs Hid) (gamma : Qc) (st st' : train_state T O)
    (i : nat) (g : T) :
  sync_and_optimize roll gamma st = (Return (), st') →
  (p_grad ∘ snd) <$> local_model st' !! i = Some (Some g) →
  is_Some (global_model st' !! i) →
  (p_grad ∘ snd) <$> global_model st' !! i = Some (Some g).
Proof.
  intros (st1 & m & Hrun & Hload & ->)%sync_and_optimize_inv.
  destruct (optimize_global_inv _ _ _ _ Hrun) as (loss & _ & ->).
  cbn [local_model global_model]. intros Hloc Hglob.
  destruct (grads_after_step loss st) as [Hl Hg]. cbv zeta in Hl, Hg.
  rewrite <- list_lookup_fmap in Hloc.
  rewrite (grads_load_state_dict _ _ _ Hload), Hl, list_lookup_fmap in Hloc.
  rewrite <- list_lookup_fmap, Hg, list_lookup_fmap.
  apply share_grads_lookup; [done |].
  apply lookup_lt_is_Some. apply lookup_lt_is_Some in Hglob.
  apply (f_equal length) in Hg.
  rewrite !length_fmap, length_share_grads in Hg. by rewrite <- Hg.
Qed.
End SyncAndOptimizeGrads.

Section SyncAndOptimizeFrame.
Context {T O Obs Hid Loss : Type} `{!TrainKernel T O Obs Hid Loss}.

Lemma step_params_frame (o : O) (k : nat) (refs : list (model_id * nat))
    (st : train_state T O) (i : nat) :
  (GlobalModel, i) ∉ refs →
  global_model (step_params o k refs st) !! i = global_model st !! i.
Proof.
  revert k st. induction refs as [|r refs IH]; intros k st Hnin; [done |].
  apply not_elem_of_cons in Hnin as [Hne Hnin]. simpl.
  rewrite (IH _ _ Hnin). unfold update_param.
  destruct r as [[] j]; simpl; [done |].
  apply list_lookup_alter_ne. congruence.
Qed.

(** X11: a global parameter the optimiser holds no reference to comes out of
    the call with the value it had. *)
Theorem sync_and_optimize_unreferenced_unchanged
    (roll : rollout Obs Hid) (gamma : Qc) (st st' : train_state T O) (i : nat) :
  sync_and_optimize roll gamma st = (Return (), st') →
  (GlobalModel, i) ∉ opt_params (optim st) →
  (p_data ∘ snd) <$> global_model st' !! i = (p_data ∘ snd) <$> global_model st !! i.
Proof.
  intros (st1 & m & Hrun & Hload & ->)%sync_and_optimize_inv Hnin.
  destruct (optimize_global_inv _ _ _ _ Hrun) as (loss & _ & ->).
  cbn [global_model]. unfold after_step. cbn [global_model set_optim].
  destruct (optim_zero_grad (opt_params (optim st)) st) as [Ho _].
  destruct (datas_zero_grad (opt_params (optim st)) st) as [_ Hd].
  cbv zeta in Ho, Hd.
  rewrite step_params_frame by (cbn [optim set_global set_local]; by rewrite Ho).
  cbn [global_model set_global set_local].
  by rewrite <- !list_lookup_fmap, datas_share_grads, Hd.
Qed.
End SyncAndOptimizeFrame.

Lemma sync_and_optimize_loss_failure_witness :
  @loss_function _ _ _ _ _ demo_train_kernel
    (buffer_cur_z demo_rollout_empty) (buffer_target_z demo_rollout_empty)
    (buffer_pre_action demo_rollout_empty) (hidden_state demo_rollout_empty)
    (cell_state demo_rollout_empty) (buffer_action demo_rollout_empty)
    (buffer_v_target (buffer_reward demo_rollout_empty) (Q2Qc (9 # 10)))
    (p_data ∘ snd <$> local_model demo_train_state) = Raise RuntimeError ∧
  @sync_and_optimize _ _ _ _ _ demo_train_kernel demo_rollout_empty (Q2Qc (9 # 10))
    demo_train_state
  = (Raise RuntimeError, demo_train_state).
Proof.
  split; [reflexivity |].
  apply (@sync_and_optimize_loss_failure _ _ _ _ _ demo_train_kernel).
  reflexivity.
Defined.

Lemma sync_and_optimize_load_failure_witness :
  (@optimize_global _ _ _ _ _ demo_train_kernel demo_rollout (Q2Qc (9 # 10))
     demo_mismatch_state
   = (Return (),
      TrainState [("w", Param 5%Z (Some 1%Z)); ("u", Param 9%Z (Some 1%Z))]
                 [("w", Param 0%Z (Some 1%Z)); ("v", Param 2%Z (Some 1%Z))]
                 (Optimizer [(GlobalModel, 0)] ()) w0) ∧
   dom (state_dict (local_model demo_mismatch_state))
   ≠ dom (state_dict (global_model demo_mismatch_state))) ∧
  @sync_and_optimize _ _ _ _ _ demo_train_kernel demo_rollout (Q2Qc (9 # 10))
    demo_mismatch_state
  = (Raise RuntimeError,
     TrainState [("w", Param 0%Z (Some 1%Z)); ("u", Param 9%Z (Some 1%Z))]
                [("w", Param 0%Z (Some 1%Z)); ("v", Param 2%Z (Some 1%Z))]
                (Optimizer [(GlobalModel, 0)] ()) w0).
Proof.
  assert (Hrun :
    @optimize_global _ _ _ _ _ demo_train_kernel demo_rollout (Q2Qc (9 # 10))
      demo_mismatch_state
    = (Return (),
       TrainState [("w", Param 5%Z (Some 1%Z)); ("u", Param 9%Z (Some 1%Z))]
                  [("w", Param 0%Z (Some 1%Z)); ("v", Param 2%Z (Some 1%Z))]
                  (Optimizer [(GlobalModel, 0)] ()) w0)) by reflexivity.
  assert (Hdom : dom (state_dict (local_model demo_mismatch_state))
                 ≠ dom (state_dict (global_model demo_mismatch_state))).
  { rewrite !dom_state_dict. simpl. intros Heq.
    assert (Hin : "u" ∈ ({["w"]} ∪ ({["v"]} ∪ ∅) : gset string))
      by (rewrite <- Heq; set_solver).
    set_solver. }
  split; [split; [exact Hrun | exact Hdom] |].
  exact (proj1 (@sync_and_optimize_load_failure _ _ _ _ _ demo_train_kernel
                  _ _ _ _ Hrun Hdom)).
Defined.

Lemma sync_and_optimize_run_demo :
  @sync_and_optimize _ _ _ _ _ demo_train_kernel demo_rollout (Q2Qc (9 # 10))
    demo_train_state
  = (Return (), demo_train_state_after).
Proof. vm_compute. reflexivity. Qed.

Lemma sync_and_optimize_invariants_witness :
  @sync_and_optimize _ _ _ _ _ demo_train_kernel demo_rollout (Q2Qc (9 # 10))
    demo_train_state
  = (Return (), demo_train_state_after) ∧
  (local_model demo_train_state_after).*1 = (local_model demo_train_state).*1.
Proof.
  split; [exact sync_and_optimize_run_demo |].
  apply (@sync_and_optimize_invariants _ _ _ _ _ demo_train_kernel
           _ _ _ _ sync_and_optimize_run_demo).
Defined.

Lemma sync_and_optimize_gradients_shared_witness :
  (@sync_and_optimize _ _ _ _ _ demo_train_kernel demo_rollout (Q2Qc (9 # 10))
     demo_train_state
   = (Return (), demo_train_state_after) ∧
   (p_grad ∘ snd) <$> local_model demo_train_state_after !! 0 = Some (Some 1%Z) ∧
   is_Some (global_model demo_train_state_after !! 0)) ∧
  (p_grad ∘ snd) <$> global_model demo_train_state_after !! 0 = Some (Some 1%Z).
Proof.
  assert (Hglob : is_Some (global_model demo_train_state_after !! 0))
    by (eexists; reflexivity).
  split; [split_and!; [exact sync_and_optimize_run_demo | reflexivity | exact Hglob] |].
  exact (@sync_and_optimize_gradients_shared _ _ _ _ _ demo_train_kernel
           _ _ _ _ 0 1%Z sync_and_optimize_run_demo eq_refl Hglob).
Defined.

Lemma sync_and_optimize_unreferenced_unchanged_witness :
  (@sync_and_optimize _ _ _ _ _ demo_train_kernel demo_rollout (Q2Qc (9 # 10))
     demo_partial_state
   = (Return (),
      TrainState [("w", Param 0%Z (Some 1%Z)); ("b", Param 2%Z (Some 1%Z))]
                 [("w", Param 0%Z (Some 1%Z)); ("b", Param 2%Z (Some 1%Z))]
                 (Optimizer [(GlobalModel, 0)] ()) (World 1 ∅)) ∧
   (GlobalModel, 1) ∉ opt_params (optim demo_partial_state)) ∧
  (p_data ∘ snd) <$>
    global_model
      (TrainState [("w", Param 0%Z (Some 1%Z)); ("b", Param 2%Z (Some 1%Z))]
                  [("w", Param 0%Z (Some 1%Z)); ("b", Param 2%Z (Some 1%Z))]
                  (Optimizer [(GlobalModel, 0)] ()) (World 1 ∅)) !! 1
  = (p_data ∘ snd) <$> global_model demo_partial_state !! 1.
Proof.
  assert (Hrun :
    @sync_and_optimize _ _ _ _ _ demo_train_kernel demo_rollout (Q2Qc (9 # 10))
      demo_partial_state
    = (Return (),
       TrainState [("w", Param 0%Z (Some 1%Z)); ("b", Param 2%Z (Some 1%Z))]
                  [("w", Param 0%Z (Some 1%Z)); ("b", Param 2%Z (Some 1%Z))]
                  (Optimizer [(GlobalModel, 0)] ()) (World 1 ∅)))
    by (vm_compute; reflexivity).
  assert (Hnin : (GlobalModel, 1) ∉ opt_params (optim demo_partial_state)).
  { simpl. intros [Heq|Hin%elem_of_nil]%elem_of_cons; [discriminate | done]. }
  split; [split; [exact Hrun | exact Hnin] |].
  exact (@sync_and_optimize_unreferenced_unchanged _ _ _ _ _ demo_train_kernel
           _ _ _ _ 1 Hrun Hnin).
Defined.

(** ** Discounted returns: special discounts and bounds *)

Lemma suffix_returns_zero (rs : list Qc) : suffix_returns (Q2Qc 0) rs = rs.
Proof.
  induction rs as [|r rs IH]; [done |]. simpl. rewrite IH. f_equal. ring.
Qed.

Lemma spec_discounted_sum_one (rs : list Qc) :
  spec_discounted_sum (Q2Qc 1) rs = foldr Qcplus (Q2Qc 0) rs.
Proof. induction rs as [|r rs IH]; [done |]. simpl. rewrite IH. ring. Qed.

(** X12: with discount 0 the value targets are the rewards themselves, and
    with discount 1 each target is the plain sum of the rewards from its
    position on. *)
Theorem buffer_v_target_discount_zero_one (rewards : list Qc) :
  buffer_v_target rewards (Q2Qc 0) = rewards ∧
  ∀ i : nat,
    i < length rewards →
    buffer_v_target rewards (Q2Qc 1) !! i
    = Some (foldr Qcplus (Q2Qc 0) (drop i rewards)).
Proof.
  rewrite !buffer_v_target_suffix_returns. split; [apply suffix_returns_zero |].
  intros i Hi. rewrite lookup_suffix_returns by done.
  by rewrite spec_discounted_sum_one.
Qed.

Lemma buffer_v_target_discount_zero_one_witness :
  1 < length [Q2Qc 1; Q2Qc 2; Q2Qc 4] ∧
  buffer_v_target [Q2Qc 1; Q2Qc 2; Q2Qc 4] (Q2Qc 1) !! 1
  = Some (foldr Qcplus (Q2Qc 0) (drop 1 [Q2Qc 1; Q2Qc 2; Q2Qc 4])).
Proof.
  split; [simpl; lia |].
  apply (buffer_v_target_discount_zero_one [Q2Qc 1; Q2Qc 2; Q2Qc 4]).
  simpl; lia.
Defined.

Lemma Qc_one_minus_pos (gamma : Qc) :
  (gamma < Q2Qc 1)%Qc → (Q2Qc 0 < Q2Qc 1 - gamma)%Qc.
Proof. intros H. by apply Qclt_minus_iff in H. Qed.

Lemma Qc_bound_nonneg (R r : Qc) : (- R ≤ r)%Qc → (r ≤ R)%Qc → (Q2Qc 0 ≤ R)%Qc.
Proof.
  intros Hlo Hhi. apply Qcnot_lt_le. intros Hneg.
  assert (HRR : (- R ≤ R)%Qc) by (eapply Qcle_trans; eassumption).
  apply Qcle_minus_iff in HRR.
  assert (Hsum : (R + - - R < Q2Qc 0)%Qc).
  { replace (R + - - R)%Qc with (R + R)%Qc by ring.
    apply Qcplus_neg_nonpos; [done | by apply Qclt_le_weak]. }
  by apply Qclt_not_le in Hsum.
Qed.

(** The return of a bounded reward sequence. *)
Lemma spec_discounted_sum_bounded (gamma R : Qc) (rs : list Qc) :
  (Q2Qc 0 ≤ gamma)%Qc → (gamma < Q2Qc 1)%Qc → (Q2Qc 0 ≤ R)%Qc →
  (∀ r, r ∈ rs → (- R ≤ r)%Qc ∧ (r ≤ R)%Qc) →
  (- (R / (Q2Qc 1 - gamma)) ≤ spec_discounted_sum gamma rs)%Qc ∧
  (spec_discounted_sum gamma rs ≤ R / (Q2Qc 1 - gamma))%Qc.
Proof.
  intros Hg0 Hg1 HR Hall.
  pose proof (Qc_one_minus_pos gamma Hg1) as HD.
  assert (HDne : (Q2Qc 1 - gamma)%Qc ≠ Q2Qc 0).
  { intros Heq. rewrite Heq in HD. by apply Qclt_not_le in HD. }
  set (B := (R / (Q2Qc 1 - gamma))%Qc).
  assert (HB : (Q2Qc 0 ≤ B)%Qc).
  { unfold B, Qcdiv. apply Qcmult_nonneg_nonneg; [done |].
    apply Qclt_le_weak. by apply Qcinv_pos. }
  assert (Hfix : (R + gamma * B)%Qc = B) by (unfold B; field; exact HDne).
  induction rs as [|r rs IH]; simpl.
  - split; [|done]. apply Qcopp_le_compat in HB.
    replace (- Q2Qc 0)%Qc with (Q2Qc 0) in HB by ring. done.
  - destruct (Hall r) as [Hlo Hhi]; [apply list_elem_of_here |].
    destruct IH as [IHlo IHhi].
    { intros r' Hr'. apply Hall. by apply list_elem_of_further. }
    split.
    + replace (- B)%Qc with (- R + gamma * - B)%Qc
        by (rewrite <- Hfix at 2; ring).
      apply Qcplus_le_compat; [done |]. by apply Qcmult_le_mono_nonneg_l.
    + rewrite <- Hfix.
      apply Qcplus_le_compat; [done |]. by apply Qcmult_le_mono_nonneg_l.
Qed.

Lemma suffix_returns_bounded (gamma R : Qc) (rs : list Qc) (v : Qc) :
  (Q2Qc 0 ≤ gamma)%Qc → (gamma < Q2Qc 1)%Qc →
  (∀ r, r ∈ rs → (- R ≤ r)%Qc ∧ (r ≤ R)%Qc) →
  v ∈ suffix_returns gamma rs →
  (- (R / (Q2Qc 1 - gamma)) ≤ v)%Qc ∧ (v ≤ R / (Q2Qc 1 - gamma))%Qc.
Proof.
  intros Hg0 Hg1. induction rs as [|r rs IH]; intros Hall Hv.
  - by apply elem_of_nil in Hv.
  - cbn [suffix_returns] in Hv. apply elem_of_cons in Hv as [-> | Hv].
    + apply spec_discounted_sum_bounded; [done | done | | done].
      destruct (Hall r) as [Hlo Hhi]; [apply list_elem_of_here |].
      by apply (Qc_bound_nonneg R r).
    + apply IH; [|done]. intros r' Hr'. apply Hall. by apply list_elem_of_further.
Qed.

(** X13: with a discount in [0, 1) and rewards bounded by R in absolute
    value, every value target is bounded by R / (1 - gamma) in absolute
    value. *)
Theorem buffer_v_target_bounded (rewards : list Qc) (gamma R v : Qc) :
  (Q2Qc 0 ≤ gamma)%Qc → (gamma < Q2Qc 1)%Qc →
  (∀ r, r ∈ rewards → (- R ≤ r)%Qc ∧ (r ≤ R)%Qc) →
  v ∈ buffer_v_target rewards gamma →
  (- (R / (Q2Qc 1 - gamma)) ≤ v)%Qc ∧ (v ≤ R / (Q2Qc 1 - gamma))%Qc.
Proof.
  rewrite buffer_v_target_suffix_returns. apply suffix_returns_bounded.
Qed.

Lemma buffer_v_target_bounded_witness :
  ((Q2Qc 0 ≤ Q2Qc (1 # 2))%Qc ∧ (Q2Qc (1 # 2) < Q2Qc 1)%Qc ∧
   (∀ r, r ∈ [Q2Qc 1; Q2Qc (-1)] → (- Q2Qc 1 ≤ r)%Qc ∧ (r ≤ Q2Qc 1)%Qc) ∧
   Q2Qc (1 # 2) ∈ buffer_v_target [Q2Qc 1; Q2Qc (-1)] (Q2Qc (1 # 2))) ∧
  (- (Q2Qc 1 / (Q2Qc 1 - Q2Qc (1 # 2))) ≤ Q2Qc (1 # 2))%Qc ∧
  (Q2Qc (1 # 2) ≤ Q2Qc 1 / (Q2Qc 1 - Q2Qc (1 # 2)))%Qc.
Proof.
  assert (Hg0 : (Q2Qc 0 ≤ Q2Qc (1 # 2))%Qc) by (by vm_compute).
  assert (Hg1 : (Q2Qc (1 # 2) < Q2Qc 1)%Qc) by (by vm_compute).
  assert (Hall : ∀ r, r ∈ [Q2Qc 1; Q2Qc (-1)] →
                   (- Q2Qc 1 ≤ r)%Qc ∧ (r ≤ Q2Qc 1)%Qc).
  { intros r [->|[->|Hin%elem_of_nil]%elem_of_cons]%elem_of_cons;
      [split; by vm_compute | split; by vm_compute | destruct Hin]. }
  assert (Hv : Q2Qc (1 # 2) ∈ buffer_v_target [Q2Qc 1; Q2Qc (-1)] (Q2Qc (1 # 2))).
  { rewrite buffer_v_target_suffix_returns. cbn [suffix_returns].
    apply elem_of_cons. left. apply Qc_is_canon. reflexivity. }
  split; [by split_and! |].
  exact (buffer_v_target_bounded _ _ _ _ Hg0 Hg1 Hall Hv).
Defined.

(** ** Filenames: which arguments can be read back *)

Section FilenameParsing.
#[local] Arguments String.append !_ _ / : simpl nomatch.

Lemma string_all_app (test : Ascii.ascii → bool) (a b : string) :
  string_all test (a +:+ b) = string_all test a && string_all test b.
Proof.
  induction a as [|c a IH]; [done |]. simpl. rewrite IH. by rewrite andb_assoc.
Qed.

Lemma string_length_app (a b : string) :
  String.length (a +:+ b) = String.length a + String.length b.
Proof. induction a as [|c a IH]; simpl; [done | by rewrite IH]. Qed.

Lemma string_app_inv_tail (a b c : string) : a +:+ c = b +:+ c → a = b.
Proof.
  revert b. induction a as [|x a IH]; intros [|y b] Heq; simpl in Heq.
  - done.
  - apply (f_equal String.length) in Heq. simpl in Heq.
    rewrite string_length_app in Heq. lia.
  - apply (f_equal String.length) in Heq. simpl in Heq.
    rewrite string_length_app in Heq. lia.
  - injection Heq as -> Heq. f_equal. by apply IH.
Qed.

(** Two texts over an alphabet, each followed by a separator outside the
    alphabet: the first separator tells where the text ends. *)
Lemma string_split_at (test : Ascii.ascii → bool) (c : Ascii.ascii)
    (u u' r r' : string) :
  string_all test u = true → string_all test u' = true → test c = false →
  u +:+ String c r = u' +:+ String c r' → u = u' ∧ r = r'.
Proof.
  intros Hu Hu' Hc. revert u' Hu'.
  induction u as [|x u IH]; intros [|y u'] Hu' Heq; simpl in *.
  - by injection Heq.
  - injection Heq as <- _. apply andb_prop in Hu' as [Hy _]. congruence.
  - injection Heq as -> _. apply andb_prop in Hu as [Hx _]. congruence.
  - injection Heq as -> Heq.
    apply andb_prop in Hu as [_ Hu]. apply andb_prop in Hu' as [_ Hu'].
    destruct (IH Hu u' Hu' Heq) as [-> ->]. done.
Qed.

Lemma string_of_uint_digits (d : Decimal.uint) :
  string_all is_decimal_char (NilEmpty.string_of_uint d) = true.
Proof. induction d; simpl; done. Qed.

Lemma str_int_decimal (z : Z) : string_all is_decimal_char (str_int z) = true.
Proof.
  unfold str_int. destruct z as [|p|p]; [done | |]; simpl.
  - destruct (Pos.to_uint p); try done; apply (string_of_uint_digits (_ _)).
  - destruct (Pos.to_uint p); try done; apply (string_of_uint_digits (_ _)).
Qed.

Lemma str_int_nonempty (z : Z) :
  ∃ (c : Ascii.ascii) (rest : string),
    str_int z = String c rest ∧ is_decimal_char c = true.
Proof.
  pose proof (str_int_decimal z) as Hall.
  destruct (str_int z) as [|c rest] eqn:Hz.
  - unfold str_int in Hz. destruct z as [|p|p]; [done | |]; simpl in Hz.
    + by destruct (Pos.to_uint p).
    + done.
  - simpl in Hall. apply andb_prop in Hall as [Hc _]. by exists c, rest.
Qed.

Lemma str_int_inj (z z' : Z) : str_int z = str_int z' → z = z'.
Proof.
  unfold str_int. intros Heq. apply DecimalZ.to_int_inj.
  assert (Hnn : ∀ n : Z, Z.to_int n ≠ Decimal.Pos Decimal.Nil ∧
                         Z.to_int n ≠ Decimal.Neg Decimal.Nil).
  { intros [|p|p]; simpl; split; try discriminate;
      intros [= Hp]; by apply DecimalPos.Unsigned.to_uint_nonnil in Hp. }
  destruct (Hnn z) as [Hz1 Hz2]. destruct (Hnn z') as [Hz1' Hz2'].
  pose proof (NilZero.isi _ Hz1 Hz2) as H1.
  pose proof (NilZero.isi _ Hz1' Hz2') as H2.
  rewrite Heq in H1. congruence.
Qed.

(** The part of a filename that follows the model name: the input size, "-1"
    and the suffix [mid] introduces when a step count is given. *)
Lemma filename_tail_inj (mid : string) (i i' e e' : Z) (steps steps' : option Z) :
  (∃ c rest, mid = String c rest ∧ is_decimal_char c = false ∧ c ≠ "e"%char) ∨
  mid = "" →
  str_int i +:+ "-1" +:+
    match steps with
    | Some n => "_" +:+ mid +:+ str_int n +:+ "N_ep" +:+ str_int e
    | None => "_ep" +:+ str_int e
    end
  = str_int i' +:+ "-1" +:+
    match steps' with
    | Some n => "_" +:+ mid +:+ str_int n +:+ "N_ep" +:+ str_int e'
    | None => "_ep" +:+ str_int e'
    end →
  i = i' ∧ e = e' ∧ steps = steps'.
Proof.
  intros Hmid Heq.
  assert (Hsplit : ∀ rest rest' : string,
            str_int i +:+ "-1" +:+ String "_"%char rest
            = str_int i' +:+ "-1" +:+ String "_"%char rest' →
            i = i' ∧ rest = rest').
  { intros rest rest' H. rewrite <- !string_app_assoc in H.
    apply (string_split_at is_decimal_char) in H as [Hi Hrest];
      [| rewrite string_all_app, str_int_decimal; done
       | rewrite string_all_app, str_int_decimal; done
       | done].
    apply string_app_inv_tail in Hi. by apply str_int_inj in Hi. }
  assert (Hsteps : ∀ n n' : Z,
            str_int n +:+ "N_ep" +:+ str_int e = str_int n' +:+ "N_ep" +:+ str_int e' →
            n = n' ∧ e = e').
  { intros n n' H.
    apply (string_split_at is_decimal_char) in H as [Hn He];
      [| apply str_int_decimal | apply str_int_decimal | done].
    apply str_int_inj in Hn. simpl in He. injection He as He.
    by apply str_int_inj in He. }
  destruct steps as [n|], steps' as [n'|]; simpl in Heq.
  - apply Hsplit in Heq as [-> Heq].
    apply (inj (String.append mid)) in Heq.
    apply Hsteps in Heq as [-> ->]. done.
  - apply Hsplit in Heq as [-> Heq]. exfalso.
    destruct Hmid as [(c & rest & -> & Hc & Hne) | ->]; simpl in Heq.
    + injection Heq as -> _. done.
    + destruct (str_int_nonempty n) as (c & rest & Hn & Hc).
      rewrite Hn in Heq. simpl in Heq. injection Heq as -> _. done.
  - apply Hsplit in Heq as [-> Heq]. exfalso.
    destruct Hmid as [(c & rest & -> & Hc & Hne) | ->]; simpl in Heq.
    + injection Heq as <- _. done.
    + destruct (str_int_nonempty n') as (c & rest & Hn & Hc).
      rewrite Hn in Heq. simpl in Heq. injection Heq as <- _. done.
  - apply Hsplit in Heq as [-> Heq]. simpl in Heq. injection Heq as Heq.
    by apply str_int_inj in Heq as ->.
Qed.

(** X14: for a given prefix and model name the filename tells the other three
    arguments apart: two calls that return the same filename were given the
    same input size, the same episode count and the same step count (or both
    none). *)
Theorem generate_model_filename_injective
    (prefix model_name : string) (i i' e e' : Z) (steps steps' : option Z)
    (w w' : world) :
  result_of (generate_model_filename prefix model_name i e steps) w
  = result_of (generate_model_filename prefix model_name i' e' steps') w' →
  i = i' ∧ e = e' ∧ steps = steps'.
Proof.
  destruct (decide (model_name = "Encoder")) as [->|Hne].
  - rewrite !generate_model_filename_encoder. intros [= Heq].
    apply (filename_tail_inj "" i i' e e' steps steps'); [by right |].
    by destruct steps, steps'.
  - rewrite !generate_model_filename_other by done. intros [= Heq].
    apply (inj (String.append prefix)) in Heq.
    apply (inj (String.append "A3C_")) in Heq.
    apply (inj (String.append model_name)) in Heq.
    apply (filename_tail_inj "recon_" i i' e e' steps steps').
    + left. eexists _, _. split_and!; [reflexivity | reflexivity | discriminate].
    + by destruct steps, steps'.
Qed.
End FilenameParsing.

Lemma generate_model_filename_injective_witness :
  result_of (generate_model_filename "run_" "Decoder" 4 100 (Some 25%Z)) w0
  = result_of (generate_model_filename "run_" "Decoder" 4 100 (Some 25%Z)) (World 3 ∅) ∧
  4%Z = 4%Z ∧ 100%Z = 100%Z ∧ Some 25%Z = Some 25%Z.
Proof.
  split; [reflexivity |].
  apply (generate_model_filename_injective "run_" "Decoder" 4 4 100 100
           (Some 25%Z) (Some 25%Z) w0 (World 3 ∅)).
  reflexivity.
Defined.

(** X15: the prefix and the model name cannot be read back: moving the text
    "A3C_" from the end of the prefix to the front of the model name gives a
    different pair of arguments and the same filename. *)
Theorem generate_model_filename_prefix_ambiguous
    (prefix model_name : string) (input_size episodes : Z) (steps : option Z)
    (w w' : world) :
  model_name ≠ "Encoder" →
  model_name ≠ "A3C_" +:+ model_name ∧
  result_of (generate_model_filename (prefix +:+ "A3C_") model_name
               input_size episodes steps) w
  = result_of (generate_model_filename prefix ("A3C_" +:+ model_name)
               input_size episodes steps) w'.
Proof.
  intros Hne. split.
  - intros Heq. apply (f_equal String.length) in Heq.
    change ("A3C_" +:+ model_name)
      with (String "A" (String "3" (String "C" (String "_" model_name)))) in Heq.
    simpl in Heq. lia.
  - rewrite !generate_model_filename_other; [| discriminate | done].
    f_equal. by rewrite !string_app_assoc.
Qed.

Lemma generate_model_filename_prefix_ambiguous_witness :
  "Decoder" ≠ "Encoder" ∧
  result_of (generate_model_filename ("run_" +:+ "A3C_") "Decoder" 4 100 None) w0
  = result_of (generate_model_filename "run_" ("A3C_" +:+ "Decoder") 4 100 None) w0.
Proof.
  split; [discriminate |].
  apply (generate_model_filename_prefix_ambiguous "run_" "Decoder" 4 100 None w0 w0).
  discriminate.
Defined.

(** ** [initialize_layers]: what the loop leaves in the layers *)

Section InitializeLayersFacts.
Context {G : Type} `{!NormalSampler G}.

Lemma initialize_layers_cons (a : nat) (layers : list nat) (st : init_state G) :
  initialize_layers (a :: layers) st
  = match initialize_step a st with
    | (Return _, st1) => initialize_layers layers st1
    | (Raise e, st1) => (Raise e, st1)
    end.
Proof.
  unfold initialize_layers. rewrite py_for_cons.
  by destruct (initialize_step a st) as [[[]|e] st1].
Qed.

(** What the body does to a layer, case by case. *)
Lemma init_layer_spec (l : layer) (g : G) :
  let '(r, (l', g')) := init_layer l g in
  attr_kind (layer_weight l') = attr_kind (layer_weight l) ∧
  attr_kind (layer_bias l') = attr_kind (layer_bias l) ∧
  (r = Return () ↔ layer_weight l ≠ Some None ∧ layer_bias l ≠ Some None) ∧
  (r = Return () → layer_bias l' = zeroed_bias (layer_bias l)) ∧
  ((∀ w, layer_weight l ≠ Some (Some w)) → g' = g) ∧
  (layer_weight l = None → layer_bias l = None → l' = l).
Proof.
  unfold init_layer, init_weight, init_bias.
  destruct l as [[[w|]|] [[b|]|]]; cbn [layer_weight layer_bias];
    try destruct (normal_sample _ _ _ _) as [values g'];
    cbn [layer_weight layer_bias attr_kind zeroed_bias fmap option_fmap option_map];
    split_and!; try done; try (split; [done | by intros [? ?]]);
    try (split; [done | intros [? ?]; done]);
    try (intros Hw; by destruct (Hw w)).
Qed.

Lemma initialize_step_lookup_ne (a id : nat) (st : init_state G) :
  id ≠ a →
  layer_store (initialize_step a st).2 !! id = layer_store st !! id.
Proof.
  intros Hne. unfold initialize_step.
  destruct (layer_store st !! a) as [l|]; [|done].
  destruct (init_layer l (generator st)) as [r [l' g']]. cbn [snd layer_store].
  by rewrite lookup_insert_ne.
Qed.

(** The body at the listed object: [None] when the object is not a layer. *)
Lemma initialize_step_at (a : nat) (st : init_state G) :
  match layer_store st !! a with
  | Some l =>
      initialize_step a st
      = ((init_layer l (generator st)).1,
         InitState (<[a := (init_layer l (generator st)).2.1]> (layer_store st))
                   (init_layer l (generator st)).2.2)
  | None => initialize_step a st = (Return (), st)
  end.
Proof.
  unfold initialize_step. destruct (layer_store st !! a) as [l|]; [|done].
  by destruct (init_layer l (generator st)) as [r [l' g']].
Qed.

(** The kinds of the attributes of every object are the same after a turn of
    the loop. *)
Lemma initialize_step_kinds (a id : nat) (st : init_state G) :
  (λ l, (attr_kind (layer_weight l), attr_kind (layer_bias l)))
    <$> layer_store (initialize_step a st).2 !! id
  = (λ l, (attr_kind (layer_weight l), attr_kind (layer_bias l)))
    <$> layer_store st !! id.
Proof.
  destruct (decide (id = a)) as [->|Hne]; [|by rewrite initialize_step_lookup_ne].
  pose proof (initialize_step_at a st) as Hstep.
  destruct (layer_store st !! a) as [l|] eqn:Hl; rewrite Hstep;
    [| cbn [snd]; by rewrite Hl].
  pose proof (init_layer_spec l (generator st)) as Hspec.
  destruct (init_layer l (generator st)) as [r [l' g']].
  destruct Hspec as (Hw & Hb & _). cbn [snd fst layer_store].
  rewrite lookup_insert_eq. cbn [fmap option_fmap option_map]. by rewrite Hw, Hb.
Qed.

Lemma kind_eq_not_none {A B} (x : option (option A)) (y : option (option B)) :
  attr_kind x = attr_kind y → x ≠ Some None → y ≠ Some None.
Proof. by destruct x as [[?|]|], y as [[?|]|]. Qed.

(** The call returns exactly when no listed object has an attribute that is
    there with the value None. *)
Lemma initialize_layers_returns (layers : list nat) (st : init_state G) :
  result_of (initialize_layers layers) st = Return ()
  ↔ ∀ id l, id ∈ layers → layer_store st !! id = Some l →
            layer_weight l ≠ Some None ∧ layer_bias l ≠ Some None.
Proof.
  unfold result_of. revert st.
  induction layers as [|a layers IH]; intros st.
  { split; [|done]. intros _ id l Hin. by apply elem_of_nil in Hin. }
  rewrite initialize_layers_cons.
  pose proof (initialize_step_at a st) as Hstep.
  pose proof (λ id, initialize_step_kinds a id st) as Hkinds.
  assert (Hrest : (∀ id l, id ∈ layers → layer_store (initialize_step a st).2 !! id = Some l →
                     layer_weight l ≠ Some None ∧ layer_bias l ≠ Some None)
                  ↔ (∀ id l, id ∈ layers → layer_store st !! id = Some l →
                     layer_weight l ≠ Some None ∧ layer_bias l ≠ Some None)).
  { split; intros H id l Hin Hl; specialize (Hkinds id); rewrite Hl in Hkinds.
    - destruct (layer_store (initialize_step a st).2 !! id) as [l1|] eqn:Hl1; [|done].
      injection Hkinds as Hw Hb. destruct (H id l1 Hin Hl1) as [H1 H2].
      split; [exact (kind_eq_not_none _ _ Hw H1) | exact (kind_eq_not_none _ _ Hb H2)].
    - destruct (layer_store st !! id) as [l0|] eqn:Hl0; [|done].
      injection Hkinds as Hw Hb. destruct (H id l0 Hin Hl0) as [H1 H2].
      split; [exact (kind_eq_not_none _ _ (eq_sym Hw) H1)
             | exact (kind_eq_not_none _ _ (eq_sym Hb) H2)]. }
  destruct (layer_store st !! a) as [l|] eqn:Hl.
  - pose proof (init_layer_spec l (generator st)) as Hspec.
    destruct (init_layer l (generator st)) as [r [l' g']].
    destruct Hspec as (_ & _ & Hret & _).
    rewrite Hstep in *. cbn [fst snd] in *.
    destruct r as [[]|e].
    + rewrite IH, Hrest. split.
      * intros H id l0 [->|Hin]%elem_of_cons Hl0; [|exact (H id l0 Hin Hl0)].
        rewrite Hl in Hl0. injection Hl0 as <-. by apply Hret.
      * intros H id l0 Hin. apply H. by apply list_elem_of_further.
    + split; [done |]. intros H.
      destruct (H a l (list_elem_of_here _ _) Hl) as [H1 H2].
      destruct Hret as [_ Hret]. by specialize (Hret (conj H1 H2)).
  - rewrite Hstep in *. cbn [snd] in Hrest. rewrite IH. split.
    + intros H id l0 [->|Hin]%elem_of_cons Hl0;
        [by rewrite Hl in Hl0 | exact (H id l0 Hin Hl0)].
    + intros H id l0 Hin. apply H. by apply list_elem_of_further.
Qed.

Lemma zeroed_bias_idemp (bias : option (option (param (list Qc)))) :
  zeroed_bias (zeroed_bias bias) = zeroed_bias bias.
Proof. destruct bias as [[b|]|]; [|done..]. simpl. by rewrite length_replicate. Qed.

(** The biases after a call that returns, for every object of the store. *)
Lemma initialize_layers_biases (layers : list nat) (st st' : init_state G)
    (id : nat) :
  initialize_layers layers st = (Return (), st') →
  layer_bias <$> layer_store st' !! id
  = (λ l, if decide (id ∈ layers) then zeroed_bias (layer_bias l) else layer_bias l)
      <$> layer_store st !! id.
Proof.
  revert st. induction layers as [|a layers IH]; intros st.
  - intros [= <-]. destruct (layer_store st !! id) as [l|]; [|done].
    cbn [fmap option_fmap option_map]. case_decide as Hin; [|done].
    by apply elem_of_nil in Hin.
  - rewrite initialize_layers_cons.
    pose proof (initialize_step_at a st) as Hstep.
    pose proof (initialize_step_lookup_ne a id st) as Hne.
    destruct (initialize_step a st) as [[[]|e] st1] eqn:Hrun; [|done].
    intros Hrest. rewrite (IH _ Hrest). cbn [snd] in Hne.
    destruct (decide (id = a)) as [->|Hneq].
    + destruct (layer_store st !! a) as [l|] eqn:Hl.
      * pose proof (init_layer_spec l (generator st)) as Hspec.
        destruct (init_layer l (generator st)) as [r [l' g']].
        destruct Hspec as (_ & _ & _ & Hbias & _).
        cbn [fst snd] in Hstep. injection Hstep as Hr Hst. subst r st1.
        cbn [layer_store]. rewrite lookup_insert_eq.
        cbn [fmap option_fmap option_map]. f_equal.
        rewrite (decide_True (P := a ∈ a :: layers)) by apply list_elem_of_here.
        rewrite (Hbias eq_refl), zeroed_bias_idemp.
        by case_decide.
      * injection Hstep as Hst. subst st1. by rewrite Hl.
    + rewrite (Hne Hneq).
      destruct (layer_store st !! id) as [l|]; [|done].
      cbn [fmap option_fmap option_map]. f_equal.
      destruct (decide (id ∈ layers)) as [Hin|Hnin].
      * rewrite decide_True; [done | by apply list_elem_of_further].
      * rewrite decide_False; [done |].
        intros [?|?]%elem_of_cons; done.
Qed.

(** X16: when no listed object has a weight or a bias attribute whose value
    is None, the call returns, and every listed layer that has a bias then
    has it filled with zeros, as many as it had entries, with its gradient
    left alone. *)
Theorem initialize_layers_zero_bias (layers : list nat) (st : init_state G) :
  (∀ id l, id ∈ layers → layer_store st !! id = Some l →
           layer_weight l ≠ Some None ∧ layer_bias l ≠ Some None) →
  result_of (initialize_layers layers) st = Return () ∧
  ∀ (id : nat) (l : layer) (b : param (list Qc)),
    id ∈ layers →
    layer_store st !! id = Some l →
    layer_bias l = Some (Some b) →
    ∃ l' : layer,
      layer_store (state_after (initialize_layers layers) st) !! id = Some l' ∧
      layer_bias l'
      = Some (Some (Param (replicate (length (p_data b)) (Q2Qc 0)) (p_grad b))).
Proof.
  intros Hok. apply initialize_layers_returns in Hok as Hret.
  split; [done |]. intros id l b Hin Hl Hb.
  unfold result_of, state_after in *.
  destruct (initialize_layers layers st) as [r st'] eqn:Hrun.
  cbn [fst snd] in *. subst r.
  pose proof (initialize_layers_biases layers st st' id Hrun) as Hbias.
  rewrite Hl in Hbias. cbn [fmap option_fmap option_map] in Hbias.
  rewrite decide_True, Hb in Hbias by done.
  destruct (layer_store st' !! id) as [l'|]; [|done].
  exists l'. split; [done |]. by injection Hbias.
Qed.

(** A listed object whose bias is None stops the loop with AttributeError:
    what was listed before it has been initialised, what is listed after it
    has not been looked at. *)
Lemma initialize_layers_none_bias (before after : list nat) (a : nat)
    (st st1 : init_state G) (l : layer) :
  initialize_layers before st = (Return (), st1) →
  layer_store st1 !! a = Some l →
  layer_weight l ≠ Some None → layer_bias l = Some None →
  initialize_layers (before ++ a :: after) st
  = (Raise AttributeError, (initialize_step a st1).2).
Proof.
  revert st. induction before as [|x before IH]; intros st Hrun Hl Hw Hb.
  - injection Hrun as <-. cbn [app]. rewrite initialize_layers_cons.
    pose proof (initialize_step_at a st) as Hstep. rewrite Hl in Hstep.
    rewrite Hstep. cbn [snd].
    unfold init_layer, init_weight, init_bias.
    destruct (layer_weight l) as [[w|]|]; [| done |].
    + destruct (normal_sample _ _ _ _) as [values g']. cbn. by rewrite Hb.
    + cbn. by rewrite Hb.
  - rewrite initialize_layers_cons in Hrun. cbn [app].
    rewrite initialize_layers_cons.
    destruct (initialize_step x st) as [[[]|e] st0]; [|done].
    by apply IH.
Qed.

(** A turn of the loop leaves alone every object but the listed one, and the
    listed one too when it has neither attribute. *)
Lemma initialize_step_keeps (a id : nat) (st : init_state G) :
  id ≠ a ∨ layer_store st !! id = Some (Layer None None) →
  layer_store (initialize_step a st).2 !! id = layer_store st !! id.
Proof.
  intros [Hne|Hl]; [by apply initialize_step_lookup_ne |].
  destruct (decide (id = a)) as [->|Hne]; [|by apply initialize_step_lookup_ne].
  pose proof (initialize_step_at a st) as Hstep. rewrite Hl in Hstep.
  rewrite Hstep. cbn. by rewrite lookup_insert_eq.
Qed.

(** X17: an object that is not listed, and a listed object that has neither a
    weight nor a bias, is the same after the call. *)
Theorem initialize_layers_frame
    (layers : list nat) (st : init_state G) (id : nat) :
  id ∉ layers ∨ layer_store st !! id = Some (Layer None None) →
  layer_store (state_after (initialize_layers layers) st) !! id
  = layer_store st !! id.
Proof.
  unfold state_after. revert st.
  induction layers as [|a layers IH]; intros st Hid; [done |].
  rewrite initialize_layers_cons.
  assert (Hstep : layer_store (initialize_step a st).2 !! id = layer_store st !! id).
  { apply initialize_step_keeps. destruct Hid as [Hnin|Hl]; [left | by right].
    intros ->. apply Hnin, list_elem_of_here. }
  destruct (initialize_step a st) as [[[]|e] st1]; cbn [snd] in *; [|done].
  rewrite IH, Hstep; [done |]. rewrite Hstep.
  destruct Hid as [Hnin|Hl]; [left | by right].
  intros Hin. apply Hnin. by apply list_elem_of_further.
Qed.

Lemma initialize_step_generator (a : nat) (st : init_state G) :
  (∀ l w, layer_store st !! a = Some l → layer_weight l ≠ Some (Some w)) →
  generator (initialize_step a st).2 = generator st.
Proof.
  intros Hnw. pose proof (initialize_step_at a st) as Hstep.
  destruct (layer_store st !! a) as [l|]; rewrite Hstep; [|done].
  pose proof (init_layer_spec l (generator st)) as Hspec.
  destruct (init_layer l (generator st)) as [r [l' g']].
  destruct Hspec as (_ & _ & _ & _ & Hg & _). cbn.
  apply Hg. intros w. by apply Hnw.
Qed.

(** X18: only weights take random numbers: when no listed object holds a
    weight tensor, the generator is the same after the call as before,
    however the call ends. *)
Theorem initialize_layers_generator_untouched
    (layers : list nat) (st : init_state G) :
  (∀ id l w, id ∈ layers → layer_store st !! id = Some l →
             layer_weight l ≠ Some (Some w)) →
  generator (state_after (initialize_layers layers) st) = generator st.
Proof.
  unfold state_after. revert st.
  induction layers as [|a layers IH]; intros st Hnw; [done |].
  rewrite initialize_layers_cons.
  assert (Hgen : generator (initialize_step a st).2 = generator st).
  { apply initialize_step_generator. intros l w. apply Hnw, list_elem_of_here. }
  assert (Hrest : ∀ id l w, id ∈ layers →
            layer_store (initialize_step a st).2 !! id = Some l →
            layer_weight l ≠ Some (Some w)).
  { intros id l1 w Hin Hl1 Hw.
    pose proof (initialize_step_kinds a id st) as Hk. rewrite Hl1 in Hk.
    destruct (layer_store st !! id) as [l0|] eqn:Hl0; [|done].
    injection Hk as Hkw _. rewrite Hw in Hkw.
    destruct (layer_weight l0) as [[w0|]|] eqn:Hw0; try done.
    by apply (Hnw id l0 w0 (list_elem_of_further _ _ _ Hin) Hl0). }
  destruct (initialize_step a st) as [[[]|e] st1]; cbn [snd] in *; [|done].
  by rewrite IH.
Qed.
End InitializeLayersFacts.

Lemma initialize_layers_zero_bias_witness :
  (∀ id l, id ∈ [1; 2; 5; 1] → layer_store demo_init_state !! id = Some l →
           layer_weight l ≠ Some None ∧ layer_bias l ≠ Some None) ∧
  result_of (@initialize_layers nat demo_sampler [1; 2; 5; 1]) demo_init_state
  = Return ().
Proof.
  assert (Hok : ∀ id l, id ∈ [1; 2; 5; 1] →
            layer_store demo_init_state !! id = Some l →
            layer_weight l ≠ Some None ∧ layer_bias l ≠ Some None).
  { intros id l Hin Hl.
    repeat (apply elem_of_cons in Hin as [->|Hin]);
      [ | | | | by apply elem_of_nil in Hin];
      vm_compute in Hl; injection Hl as <-; by split. }
  split; [exact Hok |].
  exact (proj1 (@initialize_layers_zero_bias nat demo_sampler [1; 2; 5; 1]
                  demo_init_state Hok)).
Defined.

Lemma initialize_layers_frame_witness :
  (2 ∉ [1; 2; 3; 1] ∨ layer_store demo_init_state !! 2 = Some (Layer None None)) ∧
  layer_store (state_after (@initialize_layers nat demo_sampler [1; 2; 3; 1])
                           demo_init_state) !! 2
  = layer_store demo_init_state !! 2.
Proof.
  assert (H : 2 ∉ [1; 2; 3; 1] ∨
              layer_store demo_init_state !! 2 = Some (Layer None None))
    by (right; reflexivity).
  split; [exact H |].
  exact (@initialize_layers_frame nat demo_sampler [1; 2; 3; 1]
           demo_init_state 2 H).
Defined.

Lemma initialize_layers_generator_untouched_witness :
  (∀ id l w, id ∈ [2; 5] → layer_store demo_init_state !! id = Some l →
             layer_weight l ≠ Some (Some w)) ∧
  generator (state_after (@initialize_layers nat demo_sampler [2; 5]) demo_init_state)
  = generator demo_init_state.
Proof.
  assert (Hnw : ∀ id l w, id ∈ [2; 5] →
            layer_store demo_init_state !! id = Some l →
            layer_weight l ≠ Some (Some w)).
  { intros id l w Hin Hl.
    repeat (apply elem_of_cons in Hin as [->|Hin]);
      [ | | by apply elem_of_nil in Hin];
      vm_compute in Hl; injection Hl as <-; done. }
  split; [exact Hnw |].
  exact (@initialize_layers_generator_untouched nat demo_sampler [2; 5]
           demo_init_state Hnw).
Defined.

(** The fourth layer was built without a bias: the call raises at it, after
    the first layer has been initialised and the weight of the fourth drawn;
    the third is not reached. *)
Example initialize_layers_sample :
  @initialize_layers nat demo_sampler [1; 4; 3] demo_init_state
  = (Raise AttributeError,
     InitState {[ 1 := Layer (Some (Some (Param [Q2Qc 0; Q2Qc 0] None)))
                             (Some (Some (Param [Q2Qc 0] None)));
                  2 := Layer None None;
                  3 := Layer (Some (Some (Param [Q2Qc 8] None))) None;
                  4 := Layer (Some (Some (Param [Q2Qc 1] None))) (Some None);
                  5 := Layer None (Some (Some (Param [Q2Qc 3; Q2Qc 4] None))) ]} 2).
Proof. vm_compute. reflexivity. Qed.

(** ** [plot_training_loss]: when it raises and what it plots *)

Module PlotFacts.
Import Plot.

Ltac plot_run :=
  cbv beta iota zeta delta [mbind mret M_bind M_ret bind ret emit eval];
  cbn [fst snd].

(** The commands drawn before the y-limits are computed. *)
Lemma plot_training_loss_run (losses : list Qc) (num_epochs averaging : Z)
    (label : string) (fig : list cmd) :
  plot_training_loss losses num_epochs averaging label fig
  = match floordiv (Z.of_nat (length losses)) num_epochs with
    | inl e => (inl e, fig)
    | inr iter_per_epoch =>
        let opened :=
          [Figure; Subplot 1 1 1;
           PlotXY Ax1 (py_range (Z.of_nat (length losses))) losses
                  ("Minibatch Loss " +:+ label);
           SetXLabel Ax1 "Iterations"; SetYLabel Ax1 "Loss"] in
        match np_max (drop 1000 losses) with
        | inl e => (inl e, fig ++ opened)
        | inr top =>
            match running_average losses averaging with
            | inl e => (inl e, fig ++ opened ++ [SetYLim Ax1 (Q2Qc 0) (top * Q2Qc (3 # 2))])
            | inr average =>
                (inr (),
                 fig ++ opened ++
                 [SetYLim Ax1 (Q2Qc 0) (top * Q2Qc (3 # 2));
                  PlotY Ax1 average ("Running Average " +:+ label);
                  Legend Ax1; Twiny Ax1 Ax2;
                  SetXTicks Ax2 (epoch_ticks num_epochs iter_per_epoch).1;
                  SetXTickLabels Ax2 (epoch_ticks num_epochs iter_per_epoch).2;
                  SetTicksPosition Ax2 "bottom"; SetLabelPosition Ax2 "bottom";
                  SetSpinePosition Ax2 "bottom" "outward" 45;
                  SetXLabel Ax2 "Epochs"; SetXLimFrom Ax2 Ax1; TightLayout])
            end
        end
    end.
Proof.
  unfold plot_training_loss. plot_run.
  destruct (floordiv _ _) as [e|ipe]; [done |].
  destruct (np_max _) as [e|top]; [by rewrite <- !app_assoc |].
  destruct (running_average _ _) as [e|average]; [by rewrite <- !app_assoc |].
  destruct (epoch_ticks num_epochs ipe) as [newpos newlabel].
  cbn [fst snd]. by rewrite <- !app_assoc.
Qed.

(** X19: with num_epochs = 0 the call raises ZeroDivisionError at its first
    line, before anything is drawn. *)
Theorem plot_training_loss_zero_epochs (losses : list Qc) (averaging : Z)
    (label : string) (fig : list cmd) :
  plot_training_loss losses 0 averaging label fig = (inl ZeroDivisionError, fig).
Proof. by rewrite plot_training_loss_run. Qed.

Lemma np_max_drop (losses : list Qc) :
  (∃ top, np_max (drop 1000 losses) = inr top) ↔ 1000 < length losses.
Proof.
  pose proof (length_drop losses 1000) as Hlen.
  destruct (drop 1000 losses) as [|x rest]; simpl in Hlen; split.
  - by intros [top ?].
  - lia.
  - lia.
  - intros _. by eexists.
Qed.

(** X20: with num_epochs other than 0 and at most 1000 losses the call raises
    ValueError, from np.max of the empty slice [1000:]; by then the figure is
    open and the loss curve and the two axis labels are drawn, nothing
    else. *)
Theorem plot_training_loss_few_losses (losses : list Qc)
    (num_epochs averaging : Z) (label : string) (fig : list cmd) :
  num_epochs ≠ 0%Z →
  (length losses ≤ 1000)%nat →
  plot_training_loss losses num_epochs averaging label fig
  = (inl ValueError,
     fig ++ [Figure; Subplot 1 1 1;
             PlotXY Ax1 (py_range (Z.of_nat (length losses))) losses
                    ("Minibatch Loss " +:+ label);
             SetXLabel Ax1 "Iterations"; SetYLabel Ax1 "Loss"]).
Proof.
  intros Hn Hlen. rewrite plot_training_loss_run. unfold floordiv.
  destruct (Z.eqb_spec num_epochs 0) as [|_]; [done |].
  rewrite drop_ge by done. done.
Qed.

Lemma running_average_ok (losses : list Qc) (averaging : Z) :
  (∃ average, running_average losses averaging = inr average)
  ↔ (0 < averaging)%Z ∧ losses ≠ [].
Proof.
  unfold running_average, np_ones_div.
  destruct (Z.ltb_spec averaging 0) as [Hneg|Hnn].
  { split; [by intros [? ?] | lia]. }
  destruct (decide (averaging = 0%Z)) as [->|Hnz].
  { simpl. split; [intros [? H]; by destruct losses | lia]. }
  destruct (Z.to_nat averaging) as [|n] eqn:Hn; [lia |].
  cbn [replicate]. unfold np_convolve_valid.
  destruct losses as [|x losses].
  - split; [by intros [? ?] | by intros [_ ?]].
  - split; [intros _; split; [lia | done] |].
    intros _. destruct (_ <=? _)%nat; by eexists.
Qed.

Lemma np_max_error (l : list Qc) (e : exn) :
  np_max l = inl e → e = ValueError.
Proof. destruct l; simpl; congruence. Qed.

Lemma running_average_error (losses : list Qc) (averaging : Z) (e : exn) :
  running_average losses averaging = inl e → e = ValueError.
Proof.
  unfold running_average, np_ones_div, np_convolve_valid.
  destruct (averaging <? 0)%Z; [congruence |].
  destruct losses as [|x losses]; [congruence |].
  destruct (replicate _ _) as [|y kernel]; [congruence |].
  destruct (_ <=? _)%nat; congruence.
Qed.

(** X21: a call that runs to the end had num_epochs other than 0, more than
    1000 losses and a positive averaging_iterations; and when one of the three
    is missing the call raises, ZeroDivisionError for num_epochs = 0 and
    ValueError otherwise. *)
Theorem plot_training_loss_raises_unless (losses : list Qc)
    (num_epochs averaging : Z) (label : string) (fig : list cmd) :
  ((plot_training_loss losses num_epochs averaging label fig).1 = inr () →
   num_epochs ≠ 0%Z ∧ 1000 < length losses ∧ (0 < averaging)%Z) ∧
  (¬ (num_epochs ≠ 0%Z ∧ 1000 < length losses ∧ (0 < averaging)%Z) →
   (plot_training_loss losses num_epochs averaging label fig).1
   = inl (if decide (num_epochs = 0%Z) then ZeroDivisionError else ValueError)).
Proof.
  rewrite plot_training_loss_run. unfold floordiv.
  destruct (Z.eqb_spec num_epochs 0) as [->|Hn]; [done |].
  rewrite decide_False by done.
  pose proof (np_max_drop losses) as Hmax.
  destruct (np_max (drop 1000 losses)) as [e|top] eqn:Hm.
  { apply np_max_error in Hm as ->. done. }
  assert (Hlen : 1000 < length losses) by (apply Hmax; by eexists).
  pose proof (running_average_ok losses averaging) as Havg.
  destruct (running_average losses averaging) as [e|average] eqn:Hr.
  - apply running_average_error in Hr as ->. done.
  - assert (Hpos : (0 < averaging)%Z) by (apply Havg; by eexists).
    split; [done |]. intros Hnot. destruct Hnot. done.
Qed.

Lemma np_convolve_valid_long (a v : list Qc) :
  a ≠ [] → v ≠ [] → (length v ≤ length a)%nat →
  np_convolve_valid a v
  = inr ((λ i, dot (take (length v) (drop i a)) (reverse v))
           <$> seq 0 (length a - length v + 1)).
Proof.
  intros Ha Hv Hlen. unfold np_convolve_valid.
  destruct a as [|x a]; [done |]. destruct v as [|y v]; [done |].
  by rewrite (proj2 (Nat.leb_le _ _) Hlen).
Qed.

Lemma dot_replicate (xs : list Qc) (n : nat) (c : Qc) :
  (length xs ≤ n)%nat →
  dot xs (replicate n c) = (foldr Qcplus (Q2Qc 0) xs * c)%Qc.
Proof.
  unfold dot. revert n. induction xs as [|x xs IH]; intros n Hlen.
  - destruct n; simpl; ring.
  - destruct n as [|n]; simpl in Hlen; [lia |]. simpl.
    rewrite IH by lia. ring.
Qed.

(** X22: for a window of N = averaging_iterations losses, N at least 1 and at
    most the number of losses, the plotted running average has one entry for
    every position the window fits at, and entry i is the mean of the N
    losses that start at position i. *)
Theorem running_average_window (losses : list Qc) (averaging : Z) :
  (0 < averaging)%Z →
  (Z.to_nat averaging ≤ length losses)%nat →
  ∃ average : list Qc,
    running_average losses averaging = inr average ∧
    length average = length losses - Z.to_nat averaging + 1 ∧
    ∀ i : nat,
      i < length average →
      average !! i
      = Some (foldr Qcplus (Q2Qc 0) (take (Z.to_nat averaging) (drop i losses))
              / Q2Qc (inject_Z averaging))%Qc.
Proof.
  intros Hpos Hlen. unfold running_average, np_ones_div.
  destruct (Z.ltb_spec averaging 0) as [|_]; [lia |].
  set (n := Z.to_nat averaging) in *.
  set (c := (1 / Q2Qc (inject_Z averaging))%Qc).
  assert (Hn : 0 < n) by (unfold n; lia).
  rewrite np_convolve_valid_long;
    [ | intros ->; simpl in Hlen; lia
      | destruct n; [lia | done]
      | by rewrite length_replicate ].
  rewrite length_replicate, reverse_replicate.
  eexists. split; [reflexivity |]. rewrite length_fmap, length_seq.
  split; [done |]. intros i Hi.
  rewrite list_lookup_fmap, lookup_seq_lt by done. simpl.
  rewrite dot_replicate by (rewrite length_take; lia).
  f_equal. unfold c, Qcdiv. ring.
Qed.

Lemma stride_from_lookup {A} (k skip : nat) (l : list A) (j : nat) :
  0 < k → stride_from k skip l !! j = l !! (skip + j * k).
Proof.
  intros Hk. revert skip j. induction l as [|x l IH]; intros skip j; [done |].
  destruct skip as [|skip]; cbn [stride_from].
  - destruct j as [|j]; [done |]. cbn [lookup list_lookup]. rewrite IH.
    replace (0 + S j * k) with (S (k - 1 + j * k)) by lia. done.
  - rewrite IH. done.
Qed.

Lemma py_range_lookup (n : Z) (i : nat) :
  py_range n !! i = if decide (Z.of_nat i < n)%Z then Some (Z.of_nat i) else None.
Proof.
  unfold py_range. rewrite list_lookup_fmap.
  destruct (decide (Z.of_nat i < n)%Z) as [Hlt|Hge].
  - by rewrite lookup_seq_lt by lia.
  - by rewrite lookup_seq_ge by lia.
Qed.

(** X23: the epoch axis gets one tick for every tenth epoch from 0 up to
    num_epochs: tick j is labelled 10*j and sits at 10*j*iter_per_epoch, and
    there is no tick beyond num_epochs. *)
Theorem epoch_ticks_lookup (num_epochs iter_per_epoch : Z) (j : nat) :
  let '(newpos, newlabel) := epoch_ticks num_epochs iter_per_epoch in
  newlabel !! j
    = (if decide (10 * Z.of_nat j ≤ num_epochs)%Z
       then Some (10 * Z.of_nat j)%Z else None) ∧
  newpos !! j
    = (if decide (10 * Z.of_nat j ≤ num_epochs)%Z
       then Some (10 * Z.of_nat j * iter_per_epoch)%Z else None).
Proof.
  unfold epoch_ticks, py_stride.
  rewrite !stride_from_lookup by lia.
  rewrite list_lookup_fmap, py_range_lookup.
  replace (0 + j * 10) with (j * 10) by lia.
  destruct (decide (10 * Z.of_nat j ≤ num_epochs)%Z) as [Hle|Hgt].
  - rewrite decide_True by lia. simpl. split; f_equal; lia.
  - by rewrite decide_False by lia.
Qed.

(** X24: with a positive number of epochs every tick of the epoch axis lies
    within the iterations that were plotted: between 0 and the number of
    losses. *)
Theorem epoch_ticks_in_range (losses : list Qc) (num_epochs iter_per_epoch p : Z) :
  (0 < num_epochs)%Z →
  floordiv (Z.of_nat (length losses)) num_epochs = inr iter_per_epoch →
  p ∈ (epoch_ticks num_epochs iter_per_epoch).1 →
  (0 ≤ p ≤ Z.of_nat (length losses))%Z.
Proof.
  intros Hpos Hdiv Hin. unfold floordiv in Hdiv.
  destruct (Z.eqb_spec num_epochs 0) as [|_]; [lia |].
  injection Hdiv as <-.
  apply list_elem_of_lookup in Hin as [j Hj].
  pose proof (epoch_ticks_lookup num_epochs
                (Z.of_nat (length losses) `div` num_epochs) j) as Hticks.
  destruct (epoch_ticks _ _) as [newpos newlabel]. cbn [fst] in Hj.
  destruct Hticks as [_ Hp]. rewrite Hj in Hp.
  destruct (decide (10 * Z.of_nat j ≤ num_epochs)%Z) as [Hle|]; [|done].
  injection Hp as ->.
  pose proof (Z.mul_div_le (Z.of_nat (length losses)) num_epochs Hpos) as Hmul.
  assert (Hq : (0 ≤ Z.of_nat (length losses) `div` num_epochs)%Z)
    by (apply Z.div_pos; lia).
  split; [apply Z.mul_nonneg_nonneg; lia |].
  etrans; [|exact Hmul]. apply Z.mul_le_mono_nonneg_r; lia.
Qed.
End PlotFacts.

Lemma plot_training_loss_few_losses_witness :
  (1%Z ≠ 0%Z ∧ (length [Q2Qc 1; Q2Qc 2] ≤ 1000)%nat) ∧
  Plot.plot_training_loss [Q2Qc 1; Q2Qc 2] 1 100 "" []
  = (inl Plot.ValueError,
     [] ++ [Plot.Figure; Plot.Subplot 1 1 1;
            Plot.PlotXY Plot.Ax1 (Plot.py_range (Z.of_nat (length [Q2Qc 1; Q2Qc 2])))
                        [Q2Qc 1; Q2Qc 2] ("Minibatch Loss " +:+ "");
            Plot.SetXLabel Plot.Ax1 "Iterations"; Plot.SetYLabel Plot.Ax1 "Loss"]).
Proof.
  split; [split; [discriminate | simpl; lia] |].
  apply PlotFacts.plot_training_loss_few_losses; [discriminate | simpl; lia].
Defined.

Lemma plot_training_loss_raises_unless_witness :
  ¬ (3%Z ≠ 0%Z ∧ 1000 < length [Q2Qc 1; Q2Qc 2] ∧ (0 < 100)%Z) ∧
  (Plot.plot_training_loss [Q2Qc 1; Q2Qc 2] 3 100 "" []).1
  = inl (if decide (3%Z = 0%Z) then Plot.ZeroDivisionError else Plot.ValueError).
Proof.
  assert (Hnot : ¬ (3%Z ≠ 0%Z ∧ 1000 < length [Q2Qc 1; Q2Qc 2] ∧ (0 < 100)%Z))
    by (simpl; lia).
  split; [exact Hnot |].
  exact (proj2 (PlotFacts.plot_training_loss_raises_unless
                  [Q2Qc 1; Q2Qc 2] 3 100 "" []) Hnot).
Defined.

Lemma running_average_window_witness :
  ((0 < 2)%Z ∧ (Z.to_nat 2 ≤ length [Q2Qc 1; Q2Qc 2; Q2Qc 3; Q2Qc 6])%nat) ∧
  ∃ average : list Qc,
    Plot.running_average [Q2Qc 1; Q2Qc 2; Q2Qc 3; Q2Qc 6] 2 = inr average ∧
    length average = length [Q2Qc 1; Q2Qc 2; Q2Qc 3; Q2Qc 6] - Z.to_nat 2 + 1 ∧
    ∀ i : nat,
      i < length average →
      average !! i
      = Some (foldr Qcplus (Q2Qc 0)
                (take (Z.to_nat 2) (drop i [Q2Qc 1; Q2Qc 2; Q2Qc 3; Q2Qc 6]))
              / Q2Qc (inject_Z 2))%Qc.
Proof.
  split; [split; [lia | simpl; lia] |].
  apply PlotFacts.running_average_window; [lia | simpl; lia].
Defined.

Lemma epoch_ticks_in_range_witness :
  ((0 < 20)%Z ∧
   Plot.floordiv (Z.of_nat (length (replicate 45 (Q2Qc 1)))) 20 = inr 2%Z ∧
   20%Z ∈ (Plot.epoch_ticks 20 2).1) ∧
  (0 ≤ 20 ≤ Z.of_nat (length (replicate 45 (Q2Qc 1))))%Z.
Proof.
  assert (Hin : 20%Z ∈ (Plot.epoch_ticks 20 2).1).
  { apply list_elem_of_lookup. exists 1. reflexivity. }
  split; [split_and!; [lia | reflexivity | exact Hin] |].
  exact (PlotFacts.epoch_ticks_in_range (replicate 45 (Q2Qc 1)) 20 2 20
           ltac:(lia) eq_refl Hin).
Defined.

(** Forty-five losses over twenty epochs: ticks at 0, 20 and 40 for the
    epochs 0, 10 and 20. *)
Example epoch_ticks_sample :
  Plot.epoch_ticks 20 2 = ([0; 20; 40]%Z, [0; 10; 20]%Z).
Proof. reflexivity. Qed.

(** ** [log_episode_results]: successive calls *)

(** X25: two episodes logged one after the other are on the queue in the
    order of the calls, behind what was there. *)
Theorem log_episode_results_twice
    (result_queue : nat) (items : list pyval)
    (reward1 success1 spl1 reward2 success2 spl2 : pyval) (w : world) :
  queues w !! result_queue = Some items →
  (log_episode_results result_queue reward1 success1 spl1;;
   log_episode_results result_queue reward2 success2 spl2) w
  = (Return (),
     World (gc_collections w)
       (<[result_queue := items ++ [PyList [reward1; success1; spl1];
                                     PyList [reward2; success2; spl2]]]>
          (queues w))).
Proof.
  intros Hq. unfold log_episode_results, queue_put. py_run. rewrite Hq. py_run.
  unfold set_queues. cbn [queues gc_collections].
  rewrite lookup_insert_eq. py_run. cbn [queues gc_collections].
  rewrite insert_insert_eq, <- app_assoc. done.
Qed.

Lemma log_episode_results_twice_witness :
  queues (World 2 {[ 7 := [PyNone] ]}) !! 7 = Some [PyNone] ∧
  (log_episode_results 7 (PyInt 1) (PyBool true) (PyInt 2);;
   log_episode_results 7 (PyInt 3) (PyBool false) (PyInt 4))
    (World 2 {[ 7 := [PyNone] ]})
  = (Return (),
     World 2 (<[7 := [PyNone] ++ [PyList [PyInt 1; PyBool true; PyInt 2];
                                  PyList [PyInt 3; PyBool false; PyInt 4]]]>
                {[ 7 := [PyNone] ]})).
Proof.
  split; [reflexivity |].
  apply (log_episode_results_twice 7 [PyNone]). reflexivity.
Defined.

(** The test on the absolute value counts digits: 10^d is the first integer
    of d+1 digits, and the sign is not counted. *)
Example digits_and_powers_of_ten :
  String.length (str_int (10 ^ 30 - 1)) = 30 ∧
  String.length (str_int (10 ^ 30)) = 31 ∧
  String.length (str_int (- (10 ^ 30 - 1))) = 31.
Proof. split_and!; reflexivity. Qed.
